(** * Token-bounded text chunking: a model of [services/chunking.py],
      [services/html_stripper.py] and [routers/chunking.py]

    Python values are modelled as follows.
    - [str] is [string]; one [ascii] stands for one code point below 256.
    - [int] is [Z].
    - A raised exception is the [Raise] branch of [result].
    - The module globals [encoding] and [is_initialized] are the record
      [globals], passed explicitly.
    - The two lists [chunks] and [current_chunk], which the source mutates in
      place, are the pair [buffers], passed from one statement to the next.
    - tiktoken, NLTK, [html.unescape], [HTMLParser.feed] and
      [unicodedata.normalize] are libraries: they are parameters of the
      model, and concrete small stand-ins are given in [Module Toy] for the
      evaluations.  Three library calls can raise: those of NLTK and
      [HTMLParser.feed], which the source catches, and [encoding.encode],
      which raises [ValueError] on a text that holds a special token and
      which the source does not catch.
    - [chunk_token_limit] and [overlap_tokens] are integers; [None], which
      the request model also admits, is left out.
    - Logging is left out. *)

From Stdlib Require Import Bool Ascii String List ZArith Lia DecimalString.
Import ListNotations.
Open Scope string_scope.
Open Scope Z_scope.

(** ** Python string operations used by the sources *)

Module Py.

(** [str.isspace] on one character, for code points below 256:
    TAB LF VT FF CR, FS GS RS US, SPACE, NEL and NBSP. *)
Definition isspace (c : ascii) : bool :=
  let n := nat_of_ascii c in
  ((9 <=? n) && (n <=? 13) || (28 <=? n) && (n <=? 32)
   || (n =? 133) || (n =? 160))%nat.

(** [c in string.printable]: digits, letters, punctuation and the six
    characters of [string.whitespace]. *)
Definition printable (c : ascii) : bool :=
  let n := nat_of_ascii c in
  ((32 <=? n) && (n <=? 126) || (9 <=? n) && (n <=? 13))%nat.

Definition is_empty (s : string) : bool :=
  match s with EmptyString => true | String _ _ => false end.

Fixpoint lstrip (s : string) : string :=
  match s with
  | EmptyString => EmptyString
  | String c s' => if isspace c then lstrip s' else s
  end.

Fixpoint rstrip (s : string) : string :=
  match s with
  | EmptyString => EmptyString
  | String c s' =>
      let r := rstrip s' in
      if is_empty r && isspace c then EmptyString else String c r
  end.

(** [s.strip()] *)
Definition strip (s : string) : string := rstrip (lstrip s).

(** [sep.join(l)] *)
Definition join (sep : string) (l : list string) : string := String.concat sep l.

(** [''.join(c for c in s if p(c))] *)
Fixpoint filter_chars (p : ascii -> bool) (s : string) : string :=
  match s with
  | EmptyString => EmptyString
  | String c s' => if p c then String c (filter_chars p s') else filter_chars p s'
  end.

(** [all(p(c) for c in s)] *)
Fixpoint all_chars (p : ascii -> bool) (s : string) : bool :=
  match s with
  | EmptyString => true
  | String c s' => p c && all_chars p s'
  end.

(** [s.split()]: the maximal runs of non-whitespace characters.  [cur] is
    the run being read. *)
Fixpoint split_ws_from (cur : string) (s : string) : list string :=
  match s with
  | EmptyString => if is_empty cur then [] else [cur]
  | String c s' =>
      if isspace c
      then (if is_empty cur then split_ws_from EmptyString s'
            else cur :: split_ws_from EmptyString s')
      else split_ws_from (cur ++ String c EmptyString) s'
  end.

Definition split_ws (s : string) : list string := split_ws_from EmptyString s.

(** [re.sub(r'\s+', ' ', s)]: every maximal run of whitespace becomes one
    space.  [in_run] tells that the previous character was whitespace. *)
Fixpoint collapse_from (in_run : bool) (s : string) : string :=
  match s with
  | EmptyString => EmptyString
  | String c s' =>
      if isspace c
      then (if in_run then collapse_from true s'
            else String " " (collapse_from true s'))
      else String c (collapse_from false s')
  end.

Definition re_sub_ws (s : string) : string := collapse_from false s.

(** [l[start:]] for a Python list: a negative [start] counts from the end,
    and both ends are clamped. *)
Definition slice_from {A : Type} (start : Z) (l : list A) : list A :=
  let n := Z.of_nat (List.length l) in
  let i := if start <? 0 then Z.max 0 (start + n) else Z.min start n in
  skipn (Z.to_nat i) l.

(** The separator of [_simple_sentence_split], [[.!?]+\s+]. *)
Definition is_terminator (c : ascii) : bool :=
  let n := nat_of_ascii c in ((n =? 46) || (n =? 33) || (n =? 63))%nat.

Fixpoint count_while (p : ascii -> bool) (s : string) : nat :=
  match s with
  | EmptyString => O
  | String c s' => if p c then S (count_while p s') else O
  end.

Fixpoint drop (n : nat) (s : string) : string :=
  match n, s with
  | O, _ => s
  | S _, EmptyString => EmptyString
  | S k, String _ s' => drop k s'
  end.

(** Length of the match of [[.!?]+\s+] at the start of [s], if there is
    one: the whole run of terminators, then the whole run of whitespace. *)
Definition separator_at (s : string) : option nat :=
  let p := count_while is_terminator s in
  let w := count_while isspace (drop p s) in
  match p, w with
  | S _, S _ => Some (p + w)%nat
  | _, _ => None
  end.

(** [re.split(r'[.!?]+\s+', s)]; [skip] characters of a match are still to
    be passed over. *)
Fixpoint re_split_from (skip : nat) (cur : string) (s : string) : list string :=
  match s with
  | EmptyString => [cur]
  | String c s' =>
      match skip with
      | S k => re_split_from k cur s'
      | O =>
          match separator_at s with
          | Some (S k) => cur :: re_split_from k EmptyString s'
          | _ => re_split_from O (cur ++ String c EmptyString) s'
          end
      end
  end.

Definition re_split_sentences (s : string) : list string :=
  re_split_from O EmptyString s.

End Py.

(** ** Exceptions *)

Inductive exn : Type :=
| RuntimeError (msg : string)
| ValueError (msg : string)
| AttributeError (msg : string)
| AssertionError (msg : string).

Inductive result (A : Type) : Type :=
| Ok (a : A)
| Raise (e : exn).
Arguments Ok {A} a.
Arguments Raise {A} e.

Definition bind {A B : Type} (r : result A) (k : A -> result B) : result B :=
  match r with
  | Ok a => k a
  | Raise e => Raise e
  end.

Notation "x <- r ;; k" := (bind r (fun x => k))
  (at level 61, r at next level, right associativity).
Notation "' p <- r ;; k" := (bind r (fun x => match x with p => k end))
  (at level 61, p pattern, r at next level, right associativity).

(** A [for] loop whose body may raise: the state is passed from one
    iteration to the next and the first exception ends the loop. *)
Fixpoint for_each {A S : Type} (body : A -> S -> result S) (l : list A) (s : S)
  : result S :=
  match l with
  | [] => Ok s
  | a :: l' => s' <- body a s ;; for_each body l' s'
  end.

Definition nonempty {A : Type} (l : list A) : bool :=
  match l with [] => false | _ :: _ => true end.

(** ** Library interfaces *)

(** [html.unescape]; [HTMLParser.feed], given as the data segments it hands
    to [handle_data], in order, or as the exception it raises (on a marked
    section with an unknown keyword, for instance);
    [unicodedata.normalize('NFKD', _)]. *)
Record TextLibs : Type := {
  html_unescape : string -> string;
  parser_feed : string -> result (list string);
  nfkd : string -> string
}.

(** A tiktoken encoding over its token ids.  [encode_ordinary] gives the
    tokens of a text.  [disallowed_special] is the check that [encode]
    makes first, with its default arguments: on a text that holds a
    special token, such as [<|endoftext|>], it gives the message of the
    [ValueError] that [encode] raises. *)
Record Encoding : Type := {
  token : Type;
  disallowed_special : string -> option string;
  encode_ordinary : string -> list token;
  decode : list token -> string
}.

(** [encoding.encode(text)] *)
Definition encode (enc : Encoding) (text : string) : result (list (token enc)) :=
  match disallowed_special enc text with
  | Some msg => Raise (ValueError msg)
  | None => Ok (encode_ordinary enc text)
  end.

(** [nltk.sent_tokenize] and [nltk.word_tokenize]; [None] when the call
    raises (missing data, for instance). *)
Record Nltk : Type := {
  sent_tokenize : string -> option (list string);
  word_tokenize : string -> option (list string)
}.

(** ** services/html_stripper.py *)

Module HtmlStripper.

(** [MLStripper.handle_data] appends each segment to [self.fed];
    [get_data] joins them. *)
Definition _strip_tags (L : TextLibs) (text : string) : result string :=
  fed <- parser_feed L text ;;
  Ok (Py.join "" fed).

Definition clean_text_advanced (L : TextLibs) (text : string) : result string :=
  if Py.is_empty text then Ok text
  else
    let text := html_unescape L text in
    text <- _strip_tags L text ;;
    let text := nfkd L text in
    let text := Py.filter_chars Py.printable text in
    Ok (Py.strip (Py.re_sub_ws text)).

End HtmlStripper.

(** ** services/chunking.py *)

Module Chunking.
#[local] Open Scope list_scope.

(** The module globals. *)
Record globals : Type := {
  encoding : option Encoding;
  is_initialized : bool
}.

Definition at_import : globals :=
  {| encoding := None; is_initialized := false |}.

(** [initialize_chunking_service]; a failure of [download_nltk_data] is
    caught and logged there, so only [get_encoding] can make it raise. *)
Definition initialize_chunking_service (get_encoding : result Encoding)
    (g : globals) : result globals :=
  if is_initialized g then Ok g
  else
    enc <- get_encoding ;;
    Ok {| encoding := Some enc; is_initialized := true |}.

Definition none_has_no_encode : exn :=
  AttributeError "'NoneType' object has no attribute 'encode'".

Definition num_tokens (g : globals) (text : string) : result Z :=
  if negb (is_initialized g)
  then Raise (RuntimeError "Chunking service not initialized")
  else
    match encoding g with
    | Some enc =>
        tokens <- encode enc text ;;
        Ok (Z.of_nat (List.length tokens))
    | None => Raise none_has_no_encode
    end.

Record SmartChunker : Type := {
  chunk_limit : Z;
  overlap : Z
}.

(** [SmartChunker.__init__] *)
Definition __init__ (g : globals) (chunk_token_limit overlap_tokens : Z)
  : result SmartChunker :=
  if negb (is_initialized g)
  then Raise (RuntimeError
    "Chunking service not initialized. Call initialize_chunking_service() first.")
  else Ok {| chunk_limit := chunk_token_limit; overlap := overlap_tokens |}.

(** [chunks] and [current_chunk]. *)
Definition buffers : Type := (list string * list string)%type.

(** [tokens[-self.overlap:]], decoded and stripped. *)
Definition overlap_seed (enc : Encoding) (self : SmartChunker)
    (tokens : list (token enc)) : string :=
  let overlap_token_ids := Py.slice_from (- overlap self) tokens in
  let overlap_text := decode enc overlap_token_ids in
  Py.strip overlap_text.

Definition _add_to_chunks (g : globals) (self : SmartChunker)
    (sentence : string) (b : buffers) : result buffers :=
  let '(chunks, current_chunk) := b in
  let test_chunk := current_chunk ++ [sentence] in
  test_tokens <- num_tokens g (Py.join " " test_chunk) ;;
  if test_tokens >? chunk_limit self then
    let chunks := chunks ++ [Py.join " " current_chunk] in
    let flat_chunk := Py.join " " current_chunk in
    match encoding g with
    | None => Raise none_has_no_encode
    | Some enc =>
        tokens <- encode enc flat_chunk ;;
        Ok (chunks, [overlap_seed enc self tokens; sentence])
    end
  else Ok (chunks, current_chunk ++ [sentence]).

(** The words of [_split_long_sentence]: NLTK's, or [sentence.split()] when
    NLTK raises. *)
Definition words_of (nl : Nltk) (sentence : string) : list string :=
  match word_tokenize nl sentence with
  | Some ws => ws
  | None => Py.split_ws sentence
  end.

(** Body of the word loop of [_split_long_sentence], on [word_chunks] and
    [current_words]. *)
Definition word_step (g : globals) (self : SmartChunker) (word : string)
    (b : buffers) : result buffers :=
  let '(word_chunks, current_words) := b in
  let test_words := current_words ++ [word] in
  let test_text := Py.join " " test_words in
  n <- num_tokens g test_text ;;
  if (n >? chunk_limit self) && nonempty current_words
  then Ok (word_chunks ++ [Py.join " " current_words], [word])
  else Ok (word_chunks, current_words ++ [word]).

Definition _split_long_sentence (g : globals) (nl : Nltk)
    (self : SmartChunker) (sentence : string) : result (list string) :=
  let words := words_of nl sentence in
  if (List.length words <=? 1)%nat then Ok [sentence]
  else
    '(word_chunks, current_words) <- for_each (word_step g self) words ([], []) ;;
    let word_chunks :=
      if nonempty current_words
      then word_chunks ++ [Py.join " " current_words]
      else word_chunks in
    Ok (if nonempty word_chunks then word_chunks else [sentence]).

Definition _simple_sentence_split (text : string) : list string :=
  map Py.strip
    (filter (fun s => negb (Py.is_empty (Py.strip s)))
            (Py.re_split_sentences text)).

(** [self.chunk_limit + int(self.chunk_limit * 0.1)]: the float product
    truncated toward zero is the integer quotient by ten. *)
Definition chunk_limit_with_buffer (self : SmartChunker) : Z :=
  chunk_limit self + Z.quot (chunk_limit self) 10.

(** Body of the loop over [subchunks] in [split]. *)
Definition sub_step (g : globals) (self : SmartChunker) (sub : string)
    (b : buffers) : result buffers :=
  if Py.is_empty (Py.strip sub) then Ok b
  else
    sub_tokens <- num_tokens g sub ;;
    if sub_tokens <=? chunk_limit self
    then _add_to_chunks g self (Py.strip sub) b
    else
      let '(chunks, current_chunk) := b in
      let '(chunks, current_chunk) :=
        if nonempty current_chunk
        then (chunks ++ [Py.join " " current_chunk], [])
        else (chunks, current_chunk) in
      Ok (chunks ++ [Py.strip sub], current_chunk).

(** The branch taken for a long sentence, and the one for a normal one. *)
Definition long_sentence_path (g : globals) (nl : Nltk) (self : SmartChunker)
    (sentence : string) (b : buffers) : result buffers :=
  subchunks <- _split_long_sentence g nl self sentence ;;
  for_each (sub_step g self) subchunks b.

Definition normal_sentence_path (g : globals) (self : SmartChunker)
    (sentence : string) (b : buffers) : result buffers :=
  _add_to_chunks g self sentence b.

(** Body of the loop over [sentences] in [split]. *)
Definition sentence_step (g : globals) (nl : Nltk) (self : SmartChunker)
    (sentence : string) (b : buffers) : result buffers :=
  let sentence := Py.strip sentence in
  if Py.is_empty sentence then Ok b
  else
    sentence_tokens <- num_tokens g sentence ;;
    if sentence_tokens >? chunk_limit_with_buffer self
    then long_sentence_path g nl self sentence b
    else normal_sentence_path g self sentence b.

(** The [try] of [split] and its [except Exception]: the sentences are
    NLTK's on the cleaned text.  When NLTK raises, [text] is already the
    cleaned text and [_simple_sentence_split] runs on it; when
    [clean_text_advanced] raises, [text] is still the raw text and
    [_simple_sentence_split] runs on that. *)
Definition sentences_of (L : TextLibs) (nl : Nltk) (text : string)
  : list string :=
  match HtmlStripper.clean_text_advanced L text with
  | Ok cleaned =>
      match sent_tokenize nl cleaned with
      | Some sentences => sentences
      | None => _simple_sentence_split cleaned
      end
  | Raise _ => _simple_sentence_split text
  end.

Definition split (g : globals) (L : TextLibs) (nl : Nltk)
    (self : SmartChunker) (text : string) : result (list string) :=
  let sentences := sentences_of L nl text in
  '(chunks, current_chunk) <- for_each (sentence_step g nl self) sentences ([], []) ;;
  Ok (if nonempty current_chunk
      then chunks ++ [Py.join " " current_chunk]
      else chunks).

End Chunking.

(** ** routers/chunking.py *)

Module Router.

Record ChunkRequest : Type := {
  text : string;
  chunk_token_limit : Z;
  overlap_tokens : Z
}.

Record ChunkResponse : Type := {
  status : string;
  message : string;
  chunks : list string;
  total_chunks : nat;
  total_tokens : Z
}.

(** [sum(num_tokens(chunk) for chunk in chunks)] *)
Definition sum_tokens (g : Chunking.globals) (chunks : list string) : result Z :=
  for_each (fun chunk acc => n <- Chunking.num_tokens g chunk ;; Ok (acc + n))
           chunks 0.

Definition show_nat (n : nat) : string :=
  DecimalString.NilZero.string_of_uint (Nat.to_uint n).

Definition _chunk_text (g : Chunking.globals) (L : TextLibs) (nl : Nltk)
    (request : ChunkRequest) : result ChunkResponse :=
  if Py.is_empty (text request) || Py.is_empty (Py.strip (text request))
  then Raise (ValueError "Text content cannot be empty")
  else
    chunker <- Chunking.__init__ g (chunk_token_limit request) (overlap_tokens request) ;;
    chunks <- Chunking.split g L nl chunker (text request) ;;
    total_tokens <- sum_tokens g chunks ;;
    Ok {| status := "success";
          message := "Text successfully chunked into "
                     ++ show_nat (List.length chunks) ++ " chunks";
          chunks := chunks;
          total_chunks := List.length chunks;
          total_tokens := total_tokens |}.

End Router.

(** ** Small concrete libraries for the evaluations

    The theorems below hold for every encoding and every segmenter.  The
    evaluations at concrete inputs need concrete ones; these follow the
    shape of the real libraries on plain English text: a token is a word
    or one punctuation mark, with the space before it attached
    (as in a byte-pair vocabulary); a sentence ends after ['.'], ['!'] or
    ['?'] followed by whitespace; a word is a run of letters and digits or
    one punctuation mark. *)

Module Toy.

Definition is_alnum (c : ascii) : bool :=
  let n := nat_of_ascii c in
  ((48 <=? n) && (n <=? 57) || (65 <=? n) && (n <=? 90)
   || (97 <=? n) && (n <=? 122))%nat.

Definition push (s : string) (c : ascii) : string := s ++ String c EmptyString.

(** [lead] is the space waiting for the next token, [run] the word being
    read, with its leading space. *)
Fixpoint pieces_from (lead run : string) (s : string) : list string :=
  match s with
  | EmptyString => if Py.is_empty run then [] else [run]
  | String c s' =>
      if Py.isspace c then
        (if Py.is_empty run then pieces_from " " EmptyString s'
         else run :: pieces_from " " EmptyString s')
      else if is_alnum c then
        (if Py.is_empty run then pieces_from EmptyString (push lead c) s'
         else pieces_from EmptyString (push run c) s')
      else
        (if Py.is_empty run then push lead c :: pieces_from EmptyString EmptyString s'
         else run :: String c EmptyString :: pieces_from EmptyString EmptyString s')
  end.

Definition pieces (s : string) : list string :=
  pieces_from EmptyString EmptyString s.

(** [sub in s] *)
Fixpoint contains (sub s : string) : bool :=
  String.prefix sub s
  || match s with
     | EmptyString => false
     | String _ s' => contains sub s'
     end.

(** One special token, [<|endoftext|>]; the message is the first line of
    tiktoken's. *)
Definition refuse_endoftext (s : string) : option string :=
  if contains "<|endoftext|>" s
  then Some "Encountered text corresponding to disallowed special token '<|endoftext|>'."
  else None.

Definition word_pieces : Encoding :=
  {| token := string;
     disallowed_special := refuse_endoftext;
     encode_ordinary := pieces;
     decode := Py.join "" |}.

Fixpoint sentences_from (skipping : bool) (cur : string) (s : string)
  : list string :=
  match s with
  | EmptyString => if Py.is_empty cur then [] else [cur]
  | String c s' =>
      if skipping && Py.isspace c then sentences_from true cur s'
      else if Py.is_terminator c
              && match s' with
                 | String d _ => Py.isspace d
                 | EmptyString => false
                 end
      then push cur c :: sentences_from true EmptyString s'
      else sentences_from false (push cur c) s'
  end.

Definition nltk : Nltk :=
  {| sent_tokenize := fun s => Some (sentences_from true EmptyString s);
     word_tokenize := fun s => Some (map Py.lstrip (pieces s)) |}.

(** NLTK without its data: both calls raise, so the fallbacks run. *)
Definition nltk_missing : Nltk :=
  {| sent_tokenize := fun _ => None; word_tokenize := fun _ => None |}.

(** The entities [&amp;], [&lt;] and [&gt;]. *)
Fixpoint unescape_from (skip : nat) (s : string) : string :=
  match s with
  | EmptyString => EmptyString
  | String c s' =>
      match skip with
      | S k => unescape_from k s'
      | O =>
          if String.prefix "&amp;" s then String "&" (unescape_from 4 s')
          else if String.prefix "&lt;" s then String "<" (unescape_from 3 s')
          else if String.prefix "&gt;" s then String ">" (unescape_from 3 s')
          else String c (unescape_from 0 s')
      end
  end.

Definition unescape (s : string) : string := unescape_from 0 s.

Definition is_alpha (c : ascii) : bool :=
  let n := nat_of_ascii c in
  ((65 <=? n) && (n <=? 90) || (97 <=? n) && (n <=? 122))%nat.

(** A ['<'] opens a tag when a letter, ['/'], ['!'] or ['?'] follows it;
    otherwise it is text. *)
Definition opens_tag (s : string) : bool :=
  match s with
  | String "<" (String d _) =>
      is_alpha d || Ascii.eqb d "/" || Ascii.eqb d "!" || Ascii.eqb d "?"
  | _ => false
  end.

Fixpoint feed_from (in_tag : bool) (cur : string) (s : string) : list string :=
  match s with
  | EmptyString => if in_tag || Py.is_empty cur then [] else [unescape cur]
  | String c s' =>
      if in_tag then feed_from (negb (Ascii.eqb c ">")) EmptyString s'
      else if opens_tag s then
        (if Py.is_empty cur then feed_from true EmptyString s'
         else unescape cur :: feed_from true EmptyString s')
      else feed_from false (push cur c) s'
  end.

(** Text between tags, each segment unescaped as the parser does with
    [convert_charrefs]; a tag runs from its ['<'] to the next ['>'].  A
    marked section, [<![ ... ]>], makes the parser raise, as one with an
    unknown keyword does in [html.parser]. *)
Definition feed (s : string) : result (list string) :=
  if contains "<![" s
  then Raise (AssertionError "unknown status keyword in marked section")
  else Ok (feed_from false EmptyString s).

Definition text_libs : TextLibs :=
  {| html_unescape := unescape;
     parser_feed := feed;
     nfkd := fun s => s |}.

Definition ready : Chunking.globals :=
  {| Chunking.encoding := Some word_pieces; Chunking.is_initialized := true |}.

Definition chunker (limit overlap : Z) : Chunking.SmartChunker :=
  {| Chunking.chunk_limit := limit; Chunking.overlap := overlap |}.

Definition split (limit overlap : Z) (text : string) : result (list string) :=
  Chunking.split ready text_libs nltk (chunker limit overlap) text.

Definition count (s : string) : Z := Z.of_nat (List.length (pieces s)).

End Toy.

(** ** Inputs of the evaluations *)

Module Examples.

(** Two sentences of nine tokens each. *)
Definition hill : string := "The big brown dog ran over the hill.".
Definition tree : string := "A small cat sat under the old tree.".
Definition two_sentences : string := (hill ++ " " ++ tree)%string.

(** One sentence of eleven tokens. *)
Definition eleven_tokens : string :=
  "one two three four five six seven eight nine ten.".

(** One sentence of eight tokens. *)
Definition greek : string := "alpha beta gamma delta epsilon zeta eta.".

(** The copyright sign, U+00A9, alone: not whitespace, not printable, and
    without a decomposition under NFKD. *)
Definition copyright_sign : string := String (ascii_of_nat 169) EmptyString.

Definition markup : string := "<p>Hello,   <b>world</b> and all.</p>  ".

Definition escaped_twice : string := "&amp;lt;b&amp;gt; hi".

(** A marked section with an unknown keyword, on which the parser raises. *)
Definition marked_section : string := "<![foo[bar]]> Hello world. Bye.".

(** A text that holds a special token of the encoding. *)
Definition endoftext : string := "Hello <|endoftext|> world.".


Definition request (text : string) (limit overlap : Z) : Router.ChunkRequest :=
  {| Router.text := text;
     Router.chunk_token_limit := limit;
     Router.overlap_tokens := overlap |}.

End Examples.

(** ** What the chunks are made of

    A buffer element is either the overlap seed that [_add_to_chunks] puts
    at the head of a fresh buffer, or a unit: a sentence or a fragment of a
    long sentence. *)

Inductive piece : Type :=
| Seed (s : string)
| Unit (s : string).

Definition text_of (p : piece) : string :=
  match p with Seed s => s | Unit s => s end.

Definition is_unit (p : piece) : bool :=
  match p with Seed _ => false | Unit _ => true end.

(** A chunk as [" ".join] of its pieces. *)
Definition render (ps : list piece) : string := Py.join " " (map text_of ps).

(** The words a piece contributes once the overlap duplicates are left out. *)
Definition unit_words (p : piece) : list string :=
  match p with Seed _ => [] | Unit s => Py.split_ws s end.

(** At most one seed, and only at the head. *)
Definition seed_first (ps : list piece) : Prop :=
  match ps with
  | [] => True
  | _ :: rest => Forall (fun p => is_unit p = true) rest
  end.

(** Token count with the encoding [enc]: what [num_tokens] returns when
    [encode] does not raise. *)
Definition count (enc : Encoding) (s : string) : Z :=
  Z.of_nat (List.length (encode_ordinary enc s)).

(** The exception is the [ValueError] that [encode] raises on some text. *)
Definition refused (enc : Encoding) (e : exn) : Prop :=
  exists text msg, disallowed_special enc text = Some msg /\ e = ValueError msg.

(** A call either returns a value that satisfies [P] or raises an
    exception that satisfies [E]. *)
Definition returns {A : Type} (r : result A) (E : exn -> Prop)
    (P : A -> Prop) : Prop :=
  match r with
  | Ok a => P a
  | Raise e => E e
  end.

(** The content words of one sentence of the loop in [split]: none for a
    blank sentence; the words the word segmenter gives when the sentence
    takes the long path and has at least two of them; its
    whitespace-delimited words otherwise. *)
Definition content_words (enc : Encoding) (nl : Nltk)
    (self : Chunking.SmartChunker) (sentence : string) : list string :=
  let s := Py.strip sentence in
  if Py.is_empty s then []
  else if (count enc s >? Chunking.chunk_limit_with_buffer self)
          && (2 <=? List.length (Chunking.words_of nl s))%nat
  then flat_map Py.split_ws (Chunking.words_of nl s)
  else Py.split_ws s.

(** Invariant of the word loop of [_split_long_sentence]: [word_chunks] is
    the join of closed groups, the groups and [current_words] together are
    the words read so far, every closed group has a word, and a group of
    two words or more is within the limit. *)
Definition word_inv (enc : Encoding) (self : Chunking.SmartChunker)
    (done : list string) (b : Chunking.buffers) : Prop :=
  exists groups,
    fst b = map (Py.join " ") groups
    /\ (concat groups ++ snd b)%list = done
    /\ Forall (fun grp => grp <> []) groups
    /\ (forall grp, In grp (groups ++ [snd b])%list ->
          (2 <= List.length grp)%nat ->
          count enc (Py.join " " grp) <= Chunking.chunk_limit self)
    /\ (done <> [] -> snd b <> []).

(** Invariant of the loops of [split]: [chunks] and [current_chunk] are made
    of pieces, seeds come first, and the words of the units are [words]. *)
Definition chunk_inv (words : list string) (b : Chunking.buffers) : Prop :=
  exists parts current,
    fst b = map render parts
    /\ snd b = map text_of current
    /\ flat_map unit_words (concat parts ++ current)%list = words
    /\ Forall seed_first parts
    /\ seed_first current.

(** The call ends in a [ValueError]. *)
Definition raises_value_error {A : Type} (r : result A) : Prop :=
  exists msg, r = Raise (ValueError msg).

(** A [ValueError] that the call raises is one that [encode] raised, on
    some text, with the encoding of the engine. *)
Definition value_error_from_encode {A : Type} (g : Chunking.globals)
    (r : result A) : Prop :=
  forall msg, r = Raise (ValueError msg) ->
    exists enc text,
      Chunking.encoding g = Some enc /\ disallowed_special enc text = Some msg.

(** The engine after a successful [initialize_chunking_service]. *)
Definition initialized (g : Chunking.globals) (enc : Encoding) : Prop :=
  Chunking.encoding g = Some enc /\ Chunking.is_initialized g = true.

(** * The rest of the modelled code *)

(** ** services/chunking.py, continued *)

Module ChunkingMore.
Import Chunking.
#[local] Open Scope list_scope.

(** [current_words[-overlap_size:] if overlap_size > 0 else []] with
    [overlap_size = min(len(current_words), self.overlap)]. *)
Definition overlap_words (self : SmartChunker) (current_words : list string)
  : list string :=
  let overlap_size :=
    Z.min (Z.of_nat (List.length current_words)) (overlap self) in
  if overlap_size >? 0
  then Py.slice_from (- overlap_size) current_words
  else [].

(** Body of the word loop of [_split_by_words], on [chunks] and
    [current_words]. *)
Definition by_words_step (g : globals) (self : SmartChunker) (word : string)
    (b : buffers) : result buffers :=
  let '(chunks, current_words) := b in
  let test_words := current_words ++ [word] in
  let test_text := Py.join " " test_words in
  n <- num_tokens g test_text ;;
  if (n >? chunk_limit self) && nonempty current_words
  then
    let chunks := chunks ++ [Py.join " " current_words] in
    Ok (chunks, overlap_words self current_words ++ [word])
  else Ok (chunks, current_words ++ [word]).

Definition _split_by_words (g : globals) (nl : Nltk) (self : SmartChunker)
    (text : string) : result (list string) :=
  let words := words_of nl text in
  '(chunks, current_words) <- for_each (by_words_step g self) words ([], []) ;;
  Ok (if nonempty current_words
      then chunks ++ [Py.join " " current_words]
      else chunks).

End ChunkingMore.

(** A chunk of [_split_by_words] as the words repeated from the chunk
    before it and the words that are new in it. *)
Definition word_group : Type := (list string * list string)%type.

Definition group_words (grp : word_group) : list string :=
  (fst grp ++ snd grp)%list.

(** Each group repeats the overlap words of the group before it; [prev] is
    the content of that group, empty before the first one. *)
Fixpoint overlap_chain (self : Chunking.SmartChunker) (prev : list string)
    (groups : list word_group) : Prop :=
  match groups with
  | [] => True
  | grp :: rest =>
      fst grp = ChunkingMore.overlap_words self prev
      /\ overlap_chain self (group_words grp) rest
  end.

(** The content of the last group, [prev] when there is none. *)
Definition last_group_words (prev : list string) (groups : list word_group)
  : list string :=
  fold_left (fun _ grp => group_words grp) groups prev.

(** Invariant of the word loop of [_split_by_words]. *)
Definition by_words_inv (enc : Encoding) (self : Chunking.SmartChunker)
    (done : list string) (b : Chunking.buffers) : Prop :=
  exists (closed : list word_group) (current : word_group),
    fst b = map (fun grp => Py.join " " (group_words grp)) closed
    /\ snd b = group_words current
    /\ (concat (map snd closed) ++ snd current)%list = done
    /\ overlap_chain self [] (closed ++ [current])%list
    /\ Forall (fun grp => snd grp <> []) closed
    /\ (forall grp, In grp (closed ++ [current])%list ->
          (2 <= List.length (snd grp))%nat ->
          count enc (Py.join " " (group_words grp)) <= Chunking.chunk_limit self)
    /\ (done <> [] -> snd current <> []).

(** ** Characters and the fallback sentence split *)

Module PyMore.

(** A character that the separator [[.!?]+\s+] can match. *)
Definition is_separator_char (c : ascii) : bool :=
  Py.is_terminator c || Py.isspace c.

(** The first [n] characters of [s] are separator characters. *)
Fixpoint separator_prefix (n : nat) (s : string) : bool :=
  match n, s with
  | O, _ => true
  | S _, EmptyString => false
  | S k, String c s' => is_separator_char c && separator_prefix k s'
  end.

(** The characters of [s] that are not separator characters. *)
Definition content_chars (s : string) : string :=
  Py.filter_chars (fun c => negb (is_separator_char c)) s.

End PyMore.

(** ** The content of the text that is segmented *)




(** ** The units and the seeds of the chunks of [split] *)

(** The fragments that the loop over [subchunks] keeps: those that are
    not blank, stripped. *)
Definition kept_fragments (fragments : list string) : list string :=
  map Py.strip
    (filter (fun sub => negb (Py.is_empty (Py.strip sub))) fragments).

(** The units that one sentence of the loop in [split] hands to the
    buffers: none when it is blank, itself when it is not long, and
    otherwise its fragments that are not blank, stripped. *)
Definition sentence_units (g : Chunking.globals) (enc : Encoding) (nl : Nltk)
    (self : Chunking.SmartChunker) (sentence : string) : list string :=
  let s := Py.strip sentence in
  if Py.is_empty s then []
  else if count enc s >? Chunking.chunk_limit_with_buffer self
  then
    match Chunking._split_long_sentence g nl self s with
    | Ok fragments => kept_fragments fragments
    | Raise _ => []
    end
  else [s].

(** The texts of the units of a list of pieces. *)
Definition unit_texts (ps : list piece) : list string :=
  map text_of (filter is_unit ps).

(** A seed at the head of a chunk is the overlap seed of [prev], the chunk
    before it. *)
Definition seed_from (enc : Encoding) (self : Chunking.SmartChunker)
    (prev : option string) (ps : list piece) : Prop :=
  match ps with
  | Seed s :: _ =>
      exists chunk,
        prev = Some chunk
        /\ s = Chunking.overlap_seed enc self (encode_ordinary enc chunk)
  | _ => True
  end.

Fixpoint seed_chain (enc : Encoding) (self : Chunking.SmartChunker)
    (prev : option string) (parts : list (list piece)) : Prop :=
  match parts with
  | [] => True
  | ps :: rest =>
      seed_from enc self prev ps
      /\ seed_chain enc self (Some (render ps)) rest
  end.

(** The last chunk, [prev] when there is none. *)
Definition last_chunk (prev : option string) (parts : list (list piece))
  : option string :=
  fold_left (fun _ ps => Some (render ps)) parts prev.

(** A chunk that holds two units or more is within the limit. *)
Definition merged_within (enc : Encoding) (self : Chunking.SmartChunker)
    (ps : list piece) : Prop :=
  (2 <= List.length (unit_texts ps))%nat ->
  count enc (render ps) <= Chunking.chunk_limit self.

(** A chunk is empty or holds a unit: a seed never stands alone. *)
Definition holds_unit (ps : list piece) : Prop :=
  ps = [] \/ unit_texts ps <> [].

(** Invariant of the loops of [split]: the units read so far are the units
    of the pieces, in order. *)
Definition unit_inv (enc : Encoding) (self : Chunking.SmartChunker)
    (units : list string) (b : Chunking.buffers) : Prop :=
  exists parts current,
    fst b = map render parts
    /\ snd b = map text_of current
    /\ unit_texts (concat parts ++ current)%list = units
    /\ Forall seed_first (parts ++ [current])%list
    /\ Forall (merged_within enc self) (parts ++ [current])%list
    /\ Forall holds_unit (parts ++ [current])%list
    /\ seed_chain enc self None (parts ++ [current])%list.

(** Every non-empty prefix of [units], joined, is within the limit, and no
    unit is above the threshold of the long path. *)
Definition prefixes_fit (enc : Encoding) (self : Chunking.SmartChunker)
    (units : list string) : bool :=
  forallb (fun k => count enc (Py.join " " (firstn k units))
                    <=? Chunking.chunk_limit self)
          (seq 1 (List.length units)).

Definition none_long (enc : Encoding) (self : Chunking.SmartChunker)
    (units : list string) : bool :=
  forallb (fun u => count enc u <=? Chunking.chunk_limit_with_buffer self)
          units.

(** [encode] accepts the text. *)
Definition accepted (enc : Encoding) (text : string) : bool :=
  match disallowed_special enc text with
  | None => true
  | Some _ => false
  end.

(** [encode] accepts every unit and every non-empty prefix of [units],
    joined. *)
Definition none_refused (enc : Encoding) (units : list string) : bool :=
  forallb (accepted enc) units
  && forallb (fun k => accepted enc (Py.join " " (firstn k units)))
             (seq 1 (List.length units)).

(** ** services/elasticsearch.py: the object behind [elasticsearch_service] *)

Module Elastic.

(** A Python value as the router sees the documents: what [response.json()]
    gives, and the bodies it sends. *)
#[warnings="-register-all"]
Inductive value : Type :=
| VNone
| VBool (b : bool)
| VInt (n : Z)
| VStr (s : string)
| VList (items : list value)
| VDict (entries : list (string * value)).

(** [bool(v)] *)
Definition truthy (v : value) : bool :=
  match v with
  | VNone => false
  | VBool b => b
  | VInt n => negb (n =? 0)
  | VStr s => negb (Py.is_empty s)
  | VList items => nonempty items
  | VDict entries => nonempty entries
  end.

(** [type(v).__name__] *)
Definition type_name (v : value) : string :=
  match v with
  | VNone => "NoneType"
  | VBool _ => "bool"
  | VInt _ => "int"
  | VStr _ => "str"
  | VList _ => "list"
  | VDict _ => "dict"
  end.

Definition no_attribute (class attribute : string) : exn :=
  AttributeError
    ("'" ++ class ++ "' object has no attribute '" ++ attribute ++ "'").

Fixpoint find (key : string) (entries : list (string * value))
  : option value :=
  match entries with
  | [] => None
  | (k, v) :: rest => if String.eqb k key then Some v else find key rest
  end.

(** [v.get(key, default)]; only a dict has the method. *)
Definition get_default (v : value) (key : string) (default : value)
  : result value :=
  match v with
  | VDict entries =>
      Ok (match find key entries with Some x => x | None => default end)
  | _ => Raise (no_attribute (type_name v) "get")
  end.

(** [v.get(key)] *)
Definition get (v : value) (key : string) : result value :=
  get_default v key VNone.

Record ElasticsearchService : Type := {
  base_url : option string;
  api_key : option string;
  is_initialized : bool
}.

Record LazyElasticsearchService : Type := {
  _service : option ElasticsearchService
}.

(** The module-level [elasticsearch_service = LazyElasticsearchService()]. *)
Definition elasticsearch_service_at_import : LazyElasticsearchService :=
  {| _service := None |}.

(** The property [LazyElasticsearchService.is_initialized]. *)
Definition lazy_is_initialized (proxy : LazyElasticsearchService) : bool :=
  match _service proxy with
  | None => false
  | Some service => is_initialized service
  end.

(** What the router uses of the object bound to [elasticsearch_service]:
    the attribute [is_initialized] and the two methods it calls, each of
    them present or not on the object.  A method takes the index and the
    item id, or the index and the list of operations. *)
Record Service : Type := {
  class_name : string;
  initialized_flag : bool;
  get_document_by_itemid : option (string -> string -> result value);
  bulk_update : option (string -> value -> result bool)
}.

(** The proxy class defines [search], [index_document], [delete_document],
    [create_index], [delete_index] and [get_cluster_health]: neither of the
    two methods the router calls. *)
Definition lazy_service (proxy : LazyElasticsearchService) : Service :=
  {| class_name := "LazyElasticsearchService";
     initialized_flag := lazy_is_initialized proxy;
     get_document_by_itemid := None;
     bulk_update := None |}.

(** Pydantic's validation of a [str] field and of an [Optional[str]]
    field. *)
Record Pydantic : Type := {
  validate_str : value -> result string;
  validate_optional_str : value -> result (option string)
}.

End Elastic.

(** ** routers/chunking.py: the endpoints *)

Module Endpoints.
Import Elastic.
#[local] Open Scope list_scope.

Record ChunkApiRequest : Type := {
  id : string;
  index_name : string;
  input_field_name : string;
  output_field_name : string;
  force_update : bool;
  chunk_token_limit : Z;
  overlap_tokens : Z
}.

Record ChunkApiResponse : Type := {
  status : string;
  message : string;
  elasticsearch_indexed : bool;
  document_id : option string;
  action_performed : option string
}.

(** What an endpoint gives back: a value, or a raised [HTTPException]. *)
Inductive http (A : Type) : Type :=
| Returns (a : A)
| HTTPException (status_code : Z) (detail : string).
Arguments Returns {A} a.
Arguments HTTPException {A} status_code detail.

(** [str(e)] *)
Definition str_of (e : exn) : string :=
  match e with
  | RuntimeError msg => msg
  | ValueError msg => msg
  | AttributeError msg => msg
  | AssertionError msg => msg
  end.

(** A call of [elasticsearch_service.bulk_update]: the index and the
    operations. *)
Definition bulk_call : Type := (string * value)%type.

(** [ChunkRequest(text=text, ...)] followed by [_chunk_text]. *)
Definition chunk_request (P : Pydantic) (g : Chunking.globals) (L : TextLibs)
    (nl : Nltk) (text : value) (limit overlap : Z)
  : result Router.ChunkResponse :=
  checked <- validate_str P text ;;
  Router._chunk_text g L nl
    {| Router.text := checked;
       Router.chunk_token_limit := limit;
       Router.overlap_tokens := overlap |}.

(** [bulk_update_body] *)
Definition bulk_update_body (doc_id : value) (request : ChunkApiRequest)
    (chunks : list string) : value :=
  VList
    [ VDict [("update", VDict [("_id", doc_id);
                               ("_index", VStr (index_name request))])];
      VDict [("doc",
              VDict [(output_field_name request,
                      VList (map (fun chunk => VDict [("text", VStr chunk)])
                                 chunks))])] ].

(** The calls of [bulk_update] made, and what the function returns or
    raises. *)
Definition _chunk_and_update_document (P : Pydantic) (es : Service)
    (g : Chunking.globals) (L : TextLibs) (nl : Nltk)
    (request : ChunkApiRequest) (text : value) (existing_doc : value)
  : list bulk_call * result bool :=
  match chunk_request P g L nl text (chunk_token_limit request)
          (overlap_tokens request) with
  | Raise e => ([], Raise e)
  | Ok chunk_response =>
      match get existing_doc "_id" with
      | Raise e => ([], Raise e)
      | Ok doc_id =>
          let body :=
            bulk_update_body doc_id request (Router.chunks chunk_response) in
          match bulk_update es with
          | None => ([], Raise (no_attribute (class_name es) "bulk_update"))
          | Some update =>
              ([(index_name request, body)],
               update (index_name request) body)
          end
      end
  end.

(** [existing_doc.get("_id")] as the [document_id] of a response. *)
Definition document_id_of (P : Pydantic) (existing_doc : value)
  : result (option string) :=
  doc_id <- get existing_doc "_id" ;;
  validate_optional_str P doc_id.

(** The two fields read from [existing_doc.get('_source', {})]. *)
Definition source_fields (existing_doc : value) (request : ChunkApiRequest)
  : result (value * value) :=
  source <- get_default existing_doc "_source" (VDict []) ;;
  input_content <- get source (input_field_name request) ;;
  source <- get_default existing_doc "_source" (VDict []) ;;
  content_chunks <- get source (output_field_name request) ;;
  Ok (input_content, content_chunks).

(** The part of [chunk_content] from the call of
    [_chunk_and_update_document] to the final response. *)
Definition update_and_respond (P : Pydantic) (es : Service)
    (g : Chunking.globals) (L : TextLibs) (nl : Nltk)
    (request : ChunkApiRequest) (text : value) (existing_doc : value)
  : list bulk_call * result ChunkApiResponse :=
  let '(sent, outcome) :=
    _chunk_and_update_document P es g L nl request text existing_doc in
  match outcome with
  | Raise e => (sent, Raise e)
  | Ok update_success =>
      (sent,
       doc_id <- (if update_success then document_id_of P existing_doc
                  else Ok None) ;;
       Ok {| status := "success";
             message := "Content chunked successfully.";
             elasticsearch_indexed := update_success;
             document_id := doc_id;
             action_performed :=
               if update_success then Some "updated" else None |})
  end.

(** The body of the [try] of [chunk_content]. *)
Definition chunk_content_body (P : Pydantic) (es : Service)
    (g : Chunking.globals) (L : TextLibs) (nl : Nltk)
    (request : ChunkApiRequest) : list bulk_call * result ChunkApiResponse :=
  let text := VStr "" in
  if initialized_flag es then
    match get_document_by_itemid es with
    | None => ([], Raise (no_attribute (class_name es) "get_document_by_itemid"))
    | Some fetch =>
        match fetch (index_name request) (id request) with
        | Raise e => ([], Raise e)
        | Ok existing_doc =>
            if truthy existing_doc then
              match source_fields existing_doc request with
              | Raise e => ([], Raise e)
              | Ok (input_content, content_chunks) =>
                  if negb (force_update request) && truthy content_chunks
                  then
                    ([],
                     doc_id <- document_id_of P existing_doc ;;
                     Ok {| status := "ignored";
                           message := "Document already chunked for itemid: "
                                      ++ id request;
                           elasticsearch_indexed := false;
                           document_id := doc_id;
                           action_performed := Some "noop" |})
                  else if force_update request then
                    if truthy input_content
                    then update_and_respond P es g L nl request input_content
                           existing_doc
                    else
                      ([],
                       Ok {| status := "warning";
                             message := "No " ++ input_field_name request
                                        ++ " found for itemid: " ++ id request;
                             elasticsearch_indexed := false;
                             document_id := None;
                             action_performed := None |})
                  else update_and_respond P es g L nl request text existing_doc
              end
            else
              ([],
               Ok {| status := "error";
                     message := "Document not found for itemid: " ++ id request;
                     elasticsearch_indexed := false;
                     document_id := None;
                     action_performed := None |})
        end
    end
  else
    ([],
     Ok {| status := "error";
           message := "Elasticsearch service not available";
           elasticsearch_indexed := false;
           document_id := None;
           action_performed := None |}).

(** The two [except] clauses of [chunk_content]. *)
Definition chunk_content (P : Pydantic) (es : Service) (g : Chunking.globals)
    (L : TextLibs) (nl : Nltk) (request : ChunkApiRequest)
  : list bulk_call * http ChunkApiResponse :=
  let '(sent, outcome) := chunk_content_body P es g L nl request in
  (sent,
   match outcome with
   | Ok response => Returns response
   | Raise (ValueError msg) => HTTPException 400 msg
   | Raise e => HTTPException 500 ("Internal server error: " ++ str_of e)
   end).

(** The dict that [get_chunks] returns. *)
Inductive chunks_view : Type :=
| Found (itemid : string) (chunks : list string) (total_chunks : nat)
        (total_tokens : Z)
| FoundWithout (itemid : string) (message : string)
| NotFound (itemid : string) (message : string).

Definition get_chunks_body (P : Pydantic) (es : Service)
    (g : Chunking.globals) (L : TextLibs) (nl : Nltk)
    (id index_name input_field_name : string) : result chunks_view :=
  match get_document_by_itemid es with
  | None => Raise (no_attribute (class_name es) "get_document_by_itemid")
  | Some fetch =>
      document <- fetch index_name id ;;
      if truthy document then
        source <- get_default document "_source" (VDict []) ;;
        input_content <- get source input_field_name ;;
        if truthy input_content then
          chunk_response <- chunk_request P g L nl input_content 100 20 ;;
          Ok (Found id (Router.chunks chunk_response)
                (Router.total_chunks chunk_response)
                (Router.total_tokens chunk_response))
        else
          Ok (FoundWithout id
                ("No " ++ input_field_name ++ " found in the document"))
      else Ok (NotFound id "Document not found")
  end.

Definition get_chunks (P : Pydantic) (es : Service) (g : Chunking.globals)
    (L : TextLibs) (nl : Nltk) (id index_name input_field_name : string)
  : http chunks_view :=
  if negb (initialized_flag es)
  then HTTPException 503 "Elasticsearch service not available"
  else
    match get_chunks_body P es g L nl id index_name input_field_name with
    | Ok view => Returns view
    | Raise _ => HTTPException 500 "Internal server error"
    end.

End Endpoints.

(** A search hit as Elasticsearch returns it: its id and its source
    fields. *)
Definition hit_document (doc_id : string)
    (fields : list (string * Elastic.value)) : Elastic.value :=
  Elastic.VDict [("_id", Elastic.VStr doc_id);
                 ("_source", Elastic.VDict fields)].

(** The value of a source field, [None] when the field is missing. *)
Definition field_value (fields : list (string * Elastic.value))
    (name : string) : Elastic.value :=
  match Elastic.find name fields with
  | Some v => v
  | None => Elastic.VNone
  end.

(** ** A small validator and a small index for the evaluations *)

Module ToyElastic.
Import Elastic.

Definition pydantic : Pydantic :=
  {| validate_str := fun v =>
       match v with
       | VStr s => Ok s
       | _ => Raise (ValueError "Input should be a valid string")
       end;
     validate_optional_str := fun v =>
       match v with
       | VNone => Ok None
       | VStr s => Ok (Some s)
       | _ => Raise (ValueError "Input should be a valid string")
       end |}.

(** A service that holds one document under every id, and accepts every
    update. *)
Definition service (document : value) : Service :=
  {| class_name := "ElasticsearchService";
     initialized_flag := true;
     get_document_by_itemid := Some (fun _ _ => Ok document);
     bulk_update := Some (fun _ _ => Ok true) |}.

Definition request (force : bool) : Endpoints.ChunkApiRequest :=
  {| Endpoints.id := "42";
     Endpoints.index_name := "pages";
     Endpoints.input_field_name := "body_content";
     Endpoints.output_field_name := "body_content_embeddings";
     Endpoints.force_update := force;
     Endpoints.chunk_token_limit := 10;
     Endpoints.overlap_tokens := 5 |}.

(** A document with text and no chunks yet, one with chunks already, and
    one whose text is blank. *)
Definition fresh_document : value :=
  hit_document "doc-1" [("body_content", VStr Examples.two_sentences)].

Definition chunked_document : value :=
  hit_document "doc-1"
    [("body_content", VStr Examples.two_sentences);
     ("body_content_embeddings", VList [VDict [("text", VStr Examples.hill)]])].

Definition blank_document : value :=
  hit_document "doc-1" [("body_content", VStr "   ")].

(** A document whose text holds a special token. *)
Definition special_document : value :=
  hit_document "doc-1" [("body_content", VStr Examples.endoftext)].

End ToyElastic.

(** ** More inputs of the evaluations *)

Module MoreExamples.

Definition questions : string := "Hello world.  How are you?! Fine... ok. ".

End MoreExamples.

(** * Properties *)

(** ** Strings *)

Module PyFacts.
Import Py.

Lemma is_empty_true (s : string) : is_empty s = true <-> s = "".
Proof. destruct s; simpl; split; congruence. Qed.

(** *** [split] on whitespace *)

Lemma split_ws_from_app (sp : ascii) (a b cur : string) :
  isspace sp = true ->
  split_ws_from cur (a ++ String sp b) = (split_ws_from cur a ++ split_ws b)%list.
Proof.
  intros Hsp. revert cur.
  induction a as [|c a IH]; intros cur; simpl.
  - rewrite Hsp. destruct (is_empty cur); reflexivity.
  - destruct (isspace c).
    + destruct (is_empty cur); simpl; now rewrite IH.
    + apply IH.
Qed.

Lemma split_ws_join_cons (x : string) (l : list string) :
  split_ws (join " " (x :: l)) = (split_ws x ++ split_ws (join " " l))%list.
Proof.
  unfold join. destruct l as [|y l].
  - simpl. now rewrite app_nil_r.
  - change (String.concat " " (x :: y :: l))
      with (x ++ String " " (String.concat " " (y :: l)))%string.
    unfold split_ws. now rewrite split_ws_from_app.
Qed.

Lemma split_ws_join (l : list string) :
  split_ws (join " " l) = flat_map split_ws l.
Proof.
  induction l as [|x l IH]; [reflexivity|].
  rewrite split_ws_join_cons, IH. reflexivity.
Qed.

Lemma split_ws_lstrip (s : string) : split_ws (lstrip s) = split_ws s.
Proof.
  induction s as [|c s IH]; [reflexivity|].
  unfold split_ws in *. simpl. destruct (isspace c) eqn:E; simpl.
  - exact IH.
  - now rewrite E.
Qed.

Lemma split_ws_from_rstrip (s cur : string) :
  split_ws_from cur (rstrip s) = split_ws_from cur s.
Proof.
  revert cur. induction s as [|c s IH]; intros cur; [reflexivity|].
  simpl. destruct (is_empty (rstrip s)) eqn:E; simpl.
  - destruct (isspace c) eqn:Ec; simpl.
    + apply is_empty_true in E. rewrite <- (IH ""), E. simpl.
      destruct (is_empty cur); reflexivity.
    + rewrite Ec. apply IH.
  - destruct (isspace c); [|apply IH].
    destruct (is_empty cur); now rewrite IH.
Qed.

Lemma split_ws_strip (s : string) : split_ws (strip s) = split_ws s.
Proof.
  unfold strip. unfold split_ws at 1.
  rewrite split_ws_from_rstrip. apply split_ws_lstrip.
Qed.

Lemma split_ws_blank (s : string) :
  is_empty (strip s) = true -> split_ws s = [].
Proof.
  intros H. apply is_empty_true in H.
  now rewrite <- split_ws_strip, H.
Qed.

(** *** Whitespace clean-up is idempotent *)

Lemma lstrip_collapse_true (s : string) :
  lstrip (collapse_from true s) = collapse_from true s.
Proof.
  induction s as [|c s IH]; [reflexivity|].
  simpl. destruct (isspace c) eqn:E; [exact IH|].
  simpl. now rewrite E.
Qed.

Lemma lstrip_collapse (b : bool) (s : string) :
  lstrip (collapse_from b s) = collapse_from true s.
Proof.
  destruct b; [apply lstrip_collapse_true|].
  destruct s as [|c s]; [reflexivity|].
  simpl. destruct (isspace c) eqn:E; simpl.
  - apply lstrip_collapse_true.
  - now rewrite E.
Qed.

Lemma collapse_collapse (s : string) (b : bool) :
  collapse_from b (collapse_from b s) = collapse_from b s.
Proof.
  revert b. induction s as [|c s IH]; intros b; [reflexivity|].
  simpl. destruct (isspace c) eqn:E.
  - destruct b; [apply IH|].
    simpl. now rewrite IH.
  - simpl. now rewrite E, IH.
Qed.

Lemma rstrip_rstrip (s : string) : rstrip (rstrip s) = rstrip s.
Proof.
  induction s as [|c s IH]; [reflexivity|].
  simpl. destruct (is_empty (rstrip s) && isspace c) eqn:E; [reflexivity|].
  simpl. now rewrite IH, E.
Qed.

Lemma collapse_blank (b : bool) (s : string) :
  rstrip s = "" -> rstrip (collapse_from b s) = "".
Proof.
  revert b. induction s as [|c s IH]; intros b; [reflexivity|].
  simpl. destruct (is_empty (rstrip s)) eqn:E; simpl.
  - destruct (isspace c) eqn:Ec; [|discriminate].
    intros _. apply is_empty_true in E.
    destruct b; [now apply IH|].
    simpl. now rewrite (IH true E).
  - discriminate.
Qed.

Lemma rstrip_cons (c : ascii) (s : string) :
  rstrip (String c s) =
  if is_empty (rstrip s) && isspace c then "" else String c (rstrip s).
Proof. reflexivity. Qed.

Lemma rstrip_nonblank_collapse (b : bool) (s : string) :
  is_empty (rstrip s) = false -> is_empty (rstrip (collapse_from b s)) = false.
Proof.
  revert b. induction s as [|c s IH]; intros b; [discriminate|].
  rewrite rstrip_cons. simpl collapse_from.
  destruct (isspace c) eqn:Ec.
  - destruct (is_empty (rstrip s)) eqn:E; [discriminate|]. intros _.
    destruct b; [now apply IH|].
    rewrite rstrip_cons, (IH true eq_refl). reflexivity.
  - intros _. rewrite rstrip_cons, Ec, andb_false_r. reflexivity.
Qed.

Lemma rstrip_collapse (s : string) (b : bool) :
  rstrip (collapse_from b s) = collapse_from b (rstrip s).
Proof.
  revert b. induction s as [|c s IH]; intros b; [reflexivity|].
  rewrite rstrip_cons. simpl collapse_from at 1.
  destruct (isspace c) eqn:Ec.
  - destruct (is_empty (rstrip s)) eqn:E; simpl andb; cbv iota.
    + apply is_empty_true in E.
      destruct b; [now apply collapse_blank|].
      rewrite rstrip_cons, (collapse_blank true s E). reflexivity.
    + simpl collapse_from. rewrite Ec.
      destruct b; [apply IH|].
      rewrite rstrip_cons, (rstrip_nonblank_collapse true s E), IH. reflexivity.
  - rewrite andb_false_r. simpl collapse_from. rewrite Ec.
    rewrite rstrip_cons, Ec, andb_false_r, IH. reflexivity.
Qed.

(** [re.sub(r'\s+', ' ', s).strip()] applied twice is the same as once. *)
Lemma tidy_idempotent (s : string) :
  strip (re_sub_ws (strip (re_sub_ws s))) = strip (re_sub_ws s).
Proof.
  unfold strip, re_sub_ws.
  rewrite !lstrip_collapse.
  rewrite <- (rstrip_collapse (collapse_from true s) true).
  now rewrite rstrip_rstrip, collapse_collapse.
Qed.

(** *** Character filters *)

Lemma all_chars_filter (p : ascii -> bool) (s : string) :
  all_chars p (filter_chars p s) = true.
Proof.
  induction s as [|c s IH]; [reflexivity|].
  simpl. destruct (p c) eqn:E; simpl; [now rewrite E|exact IH].
Qed.

Lemma filter_all_chars (p : ascii -> bool) (s : string) :
  all_chars p s = true -> filter_chars p s = s.
Proof.
  induction s as [|c s IH]; [reflexivity|].
  simpl. intros H. apply andb_prop in H as [Hc Hs].
  now rewrite Hc, IH.
Qed.

Lemma all_chars_lstrip (p : ascii -> bool) (s : string) :
  all_chars p s = true -> all_chars p (lstrip s) = true.
Proof.
  induction s as [|c s IH]; [reflexivity|].
  intros H. simpl. destruct (isspace c); [|exact H].
  simpl in H. apply andb_prop in H as [_ Hs]. now apply IH.
Qed.

Lemma all_chars_rstrip (p : ascii -> bool) (s : string) :
  all_chars p s = true -> all_chars p (rstrip s) = true.
Proof.
  induction s as [|c s IH]; [reflexivity|].
  intros H. simpl in H. apply andb_prop in H as [Hc Hs].
  rewrite rstrip_cons.
  destruct (is_empty (rstrip s) && isspace c); [reflexivity|].
  simpl. now rewrite Hc, IH.
Qed.

Lemma all_chars_collapse (b : bool) (s : string) :
  all_chars printable s = true ->
  all_chars printable (collapse_from b s) = true.
Proof.
  revert b. induction s as [|c s IH]; intros b; [reflexivity|].
  intros H. simpl in H. apply andb_prop in H as [Hc Hs].
  simpl. destruct (isspace c).
  - destruct b; [now apply IH|]. simpl all_chars.
    rewrite (IH true Hs). reflexivity.
  - simpl. now rewrite Hc, IH.
Qed.

End PyFacts.

(** ** Calls that may raise, and loops *)

Lemma returns_bind {A B : Type} (r : result A) (k : A -> result B)
    (E : exn -> Prop) (P : A -> Prop) (Q : B -> Prop) :
  returns r E P ->
  (forall a, P a -> returns (k a) E Q) ->
  returns (bind r k) E Q.
Proof. destruct r as [a|e]; simpl; [intros Ha Hk; now apply Hk | tauto]. Qed.

Lemma returns_weaken {A : Type} (r : result A) (E : exn -> Prop)
    (P Q : A -> Prop) :
  returns r E P -> (forall a, P a -> Q a) -> returns r E Q.
Proof. destruct r as [a|e]; simpl; auto. Qed.

(** With an encoding that refuses no text, a call that raises only what
    [encode] raises returns. *)
Lemma returns_unless_refused {A : Type} (enc : Encoding) (r : result A)
    (P : A -> Prop) :
  (forall text, disallowed_special enc text = None) ->
  returns r (refused enc) P ->
  exists a, r = Ok a /\ P a.
Proof.
  intros Hnone. destruct r as [a|e]; simpl.
  - intros H. now exists a.
  - intros (text & msg & H & _). rewrite Hnone in H. discriminate H.
Qed.

(** An invariant of the loop body holds when the loop returns, and the
    loop raises only what its body raises. *)
Lemma for_each_returns {A S : Type} (body : A -> S -> result S)
    (E : exn -> Prop) (I : list A -> S -> Prop) :
  (forall done a s, I done s -> returns (body a s) E (I (done ++ [a])%list)) ->
  forall l done s, I done s ->
    returns (for_each body l s) E (I (done ++ l)%list).
Proof.
  intros Hstep. induction l as [|a l IH]; intros done s HI.
  - simpl. now rewrite app_nil_r.
  - simpl. apply (returns_bind _ _ E (I (done ++ [a])%list)).
    + now apply Hstep.
    + intros s1 I1. specialize (IH _ _ I1).
      now rewrite <- app_assoc in IH.
Qed.

Lemma nonempty_true {A : Type} (l : list A) : nonempty l = true <-> l <> [].
Proof. destruct l; simpl; split; congruence. Qed.

Lemma nonempty_false {A : Type} (l : list A) : nonempty l = false <-> l = [].
Proof. destruct l; simpl; split; congruence. Qed.

(** ** The chunker *)

Module ChunkingFacts.
Import Chunking.
#[local] Open Scope list_scope.

Lemma encode_accepted (enc : Encoding) (text : string) :
  disallowed_special enc text = None ->
  encode enc text = Ok (encode_ordinary enc text).
Proof. intros H. unfold encode. now rewrite H. Qed.

Lemma encode_returns (enc : Encoding) (text : string) :
  returns (encode enc text) (refused enc)
    (fun tokens => tokens = encode_ordinary enc text).
Proof.
  unfold encode. destruct (disallowed_special enc text) as [msg|] eqn:E; simpl.
  - now exists text, msg.
  - reflexivity.
Qed.

Section Initialized.

Variable g : globals.
Variable enc : Encoding.
Variable nl : Nltk.
Variable self : SmartChunker.
Hypothesis Hready : initialized g enc.

(** On an initialized engine [num_tokens] is [len(encoding.encode(text))]. *)
Lemma num_tokens_ready (text : string) :
  num_tokens g text
  = (tokens <- encode enc text ;; Ok (Z.of_nat (List.length tokens))).
Proof.
  destruct Hready as [He Hi]. unfold num_tokens. now rewrite Hi, He.
Qed.

Lemma num_tokens_accepted (text : string) :
  disallowed_special enc text = None ->
  num_tokens g text = Ok (count enc text).
Proof.
  intros H. now rewrite num_tokens_ready, (encode_accepted enc text H).
Qed.

Lemma num_tokens_returns (text : string) :
  returns (num_tokens g text) (refused enc) (fun n => n = count enc text).
Proof.
  rewrite num_tokens_ready.
  apply (returns_bind _ _ _ _ _ (encode_returns enc text)).
  now intros tokens ->.
Qed.

(** *** Long-sentence splitting *)

Lemma word_step_inv (done : list string) (word : string) (b : buffers) :
  word_inv enc self done b ->
  returns (word_step g self word b) (refused enc)
    (word_inv enc self (done ++ [word])).
Proof.
  destruct b as [wc cw]. intros (groups & Hwc & Hdone & Hne & Hbound & Hcw).
  simpl in *. unfold word_step.
  apply (returns_bind _ _ _ _ _ (num_tokens_returns _)). intros n ->.
  destruct (count enc (Py.join " " (cw ++ [word])) >? chunk_limit self) eqn:Hgt;
    cbn [andb].
  - destruct (nonempty cw) eqn:Hn; cbn [returns].
    + exists (groups ++ [cw]). simpl. repeat split.
      * now rewrite map_app, Hwc.
      * now rewrite concat_app, <- Hdone; simpl; rewrite app_nil_r.
      * apply Forall_app. split; [exact Hne|].
        constructor; [now apply nonempty_true | constructor].
      * intros grp Hin Hlen. apply in_app_or in Hin as [Hin|[<-|[]]].
        -- now apply Hbound.
        -- simpl in Hlen. lia.
      * discriminate.
    + apply nonempty_false in Hn. subst cw.
      exists groups. simpl. repeat split; try assumption.
      * now rewrite <- Hdone, app_nil_r.
      * intros grp Hin Hlen. apply in_app_or in Hin as [Hin|[<-|[]]].
        -- apply Hbound; [|exact Hlen]. apply in_or_app. now left.
        -- simpl in Hlen. lia.
      * discriminate.
  - cbn [returns].
    exists groups. simpl. repeat split; try assumption.
    + now rewrite <- Hdone, app_assoc.
    + intros grp Hin Hlen. apply in_app_or in Hin as [Hin|[<-|[]]].
      * apply Hbound; [|exact Hlen]. apply in_or_app. now left.
      * rewrite Z.gtb_ltb in Hgt. now apply Z.ltb_ge in Hgt.
    + intros _. now destruct cw.
Qed.

(** With two words or more, the fragments are the joins of consecutive
    groups of the words. *)
Lemma split_long_sentence_groups (sentence : string) :
  (2 <= List.length (words_of nl sentence))%nat ->
  returns (_split_long_sentence g nl self sentence) (refused enc)
    (fun fragments =>
       exists groups,
         fragments = map (Py.join " ") groups
         /\ concat groups = words_of nl sentence
         /\ Forall (fun grp => grp <> []) groups
         /\ (forall grp, In grp groups -> (2 <= List.length grp)%nat ->
               count enc (Py.join " " grp) <= chunk_limit self)).
Proof.
  intros Hlen. unfold _split_long_sentence.
  destruct (List.length (words_of nl sentence) <=? 1)%nat eqn:E;
    [apply Nat.leb_le in E; lia|].
  apply (returns_bind _ _ _ (word_inv enc self (words_of nl sentence))).
  { apply (for_each_returns (word_step g self) (refused enc) (word_inv enc self)
             word_step_inv (words_of nl sentence) [] ([], [])).
    exists []. simpl. repeat split; try constructor.
    - intros grp [<-|[]] H. simpl in H. lia.
    - congruence. }
  intros [wc cw] (groups & Hwc & Hdone & Hne & Hbound & Hcw). simpl in *.
  assert (Hcw' : cw <> []).
  { apply Hcw. intros H. rewrite H in Hlen. simpl in Hlen. lia. }
  apply nonempty_true in Hcw' as Hn. rewrite Hn.
  exists (groups ++ [cw]). repeat split.
  - rewrite map_app, <- Hwc. simpl.
    now destruct (wc ++ [Py.join " " cw]) eqn:Hx;
      [destruct wc; discriminate|].
  - now rewrite concat_app; simpl; rewrite app_nil_r.
  - apply Forall_app. split; [exact Hne|]. now repeat constructor.
  - exact Hbound.
Qed.

(** C10: with two words or more, the fragments returned are the joins
    of consecutive non-empty groups of the words, a group of two words or
    more is within the limit, and so a group above the limit is a single
    word.  The call raises only when [encode] refuses a text. *)
Theorem long_sentence_fragments_bounded (sentence : string) :
  (2 <= List.length (words_of nl sentence))%nat ->
  match _split_long_sentence g nl self sentence with
  | Ok fragments =>
      exists groups,
        fragments = map (Py.join " ") groups
        /\ concat groups = words_of nl sentence
        /\ Forall (fun grp => grp <> []) groups
        /\ (forall grp, In grp groups -> (2 <= List.length grp)%nat ->
              count enc (Py.join " " grp) <= chunk_limit self)
        /\ (forall grp, In grp groups ->
              chunk_limit self < count enc (Py.join " " grp) ->
              exists word, grp = [word])
  | Raise e => refused enc e
  end.
Proof.
  intros Hlen.
  apply (returns_weaken _ _ _ _ (split_long_sentence_groups sentence Hlen)).
  intros fragments (groups & Hrun & Hcat & Hne & Hbound).
  exists groups. repeat split; try assumption.
  intros grp Hin Hover.
  destruct grp as [|word [|word' rest]].
  - rewrite Forall_forall in Hne. now destruct (Hne [] Hin).
  - now exists word.
  - assert (count enc (Py.join " " (word :: word' :: rest)) <= chunk_limit self)
      by (apply Hbound; [exact Hin | simpl; lia]).
    lia.
Qed.

(** The fragments of a sentence carry its words: those of the word
    segmenter when there are two or more, and the sentence itself
    otherwise. *)
Lemma long_sentence_fragment_words (sentence : string) :
  returns (_split_long_sentence g nl self sentence) (refused enc)
    (fun fragments =>
       flat_map Py.split_ws fragments
       = if (2 <=? List.length (words_of nl sentence))%nat
         then flat_map Py.split_ws (words_of nl sentence)
         else Py.split_ws sentence).
Proof.
  destruct (2 <=? List.length (words_of nl sentence))%nat eqn:E.
  - apply Nat.leb_le in E.
    apply (returns_weaken _ _ _ _ (split_long_sentence_groups sentence E)).
    intros fragments (groups & -> & Hcat & _).
    rewrite <- Hcat. clear.
    induction groups as [|grp groups IH]; [reflexivity|].
    simpl. now rewrite IH, flat_map_app, PyFacts.split_ws_join.
  - apply Nat.leb_gt in E. unfold _split_long_sentence.
    destruct (List.length (words_of nl sentence) <=? 1)%nat eqn:E1;
      [|apply Nat.leb_gt in E1; lia].
    simpl. now rewrite app_nil_r.
Qed.

(** *** The merge step and the loops of [split] *)

Lemma seed_first_snoc (ps : list piece) (u : string) :
  seed_first ps -> seed_first (ps ++ [Unit u]).
Proof.
  destruct ps as [|p rest]; simpl; intros H.
  - constructor.
  - apply Forall_app. split; [exact H|]. now repeat constructor.
Qed.

Lemma unit_words_snoc (ps qs : list piece) (u : string) :
  flat_map unit_words (ps ++ qs ++ [Unit u])
  = flat_map unit_words (ps ++ qs) ++ Py.split_ws u.
Proof.
  rewrite app_assoc, flat_map_app. simpl. now rewrite app_nil_r.
Qed.

(** Closing the buffer moves its pieces to the chunks. *)
Lemma chunk_inv_flush (words : list string) (chunks current : list string)
    (tail : list piece) :
  chunk_inv words (chunks, current) ->
  seed_first tail ->
  chunk_inv (words ++ flat_map unit_words tail)
    (chunks ++ [Py.join " " current], map text_of tail).
Proof.
  intros (parts & cur & Hc & Hcur & Hw & Hsf & Hsc) Htail. simpl in *.
  exists (parts ++ [cur]), tail. simpl. repeat split.
  - rewrite map_app, Hc, Hcur. reflexivity.
  - rewrite concat_app, flat_map_app. simpl.
    now rewrite app_nil_r, <- Hw.
  - apply Forall_app. split; [exact Hsf|]. now repeat constructor.
  - exact Htail.
Qed.

(** The outcomes of the merge step: the unit joins the buffer; or the
    buffer is closed and a new one starts with the overlap seed and the
    unit; or [encode] refuses the joined text or the closed chunk. *)
Lemma add_to_chunks_fits (u : string) (chunks current : list string) :
  disallowed_special enc (Py.join " " (current ++ [u])) = None ->
  count enc (Py.join " " (current ++ [u])) <= chunk_limit self ->
  _add_to_chunks g self u (chunks, current) = Ok (chunks, current ++ [u]).
Proof.
  intros Ha H. unfold _add_to_chunks.
  rewrite (num_tokens_accepted _ Ha). cbn [bind].
  rewrite Z.gtb_ltb. apply Z.ltb_ge in H. now rewrite H.
Qed.

Lemma add_to_chunks_overflow (u : string) (chunks current : list string) :
  disallowed_special enc (Py.join " " (current ++ [u])) = None ->
  disallowed_special enc (Py.join " " current) = None ->
  chunk_limit self < count enc (Py.join " " (current ++ [u])) ->
  _add_to_chunks g self u (chunks, current)
  = Ok (chunks ++ [Py.join " " current],
        [overlap_seed enc self (encode_ordinary enc (Py.join " " current)); u]).
Proof.
  intros Ha Hflat H. unfold _add_to_chunks.
  rewrite (num_tokens_accepted _ Ha). cbn [bind].
  apply Z.gtb_lt in H. rewrite H.
  destruct Hready as [He _]. now rewrite He, (encode_accepted enc _ Hflat).
Qed.

(** On an empty buffer the overflow branch closes the empty string. *)
Lemma add_to_chunks_overflow_empty_buffer (u : string) (chunks : list string) :
  disallowed_special enc u = None ->
  disallowed_special enc "" = None ->
  chunk_limit self < count enc u ->
  _add_to_chunks g self u (chunks, [])
  = Ok (chunks ++ [""], [overlap_seed enc self (encode_ordinary enc ""); u]).
Proof. intros Ha He H. now apply (add_to_chunks_overflow u chunks []). Qed.

(** The merge step, whichever branch it takes. *)
Lemma add_to_chunks_returns (u : string) (chunks current : list string) :
  returns (_add_to_chunks g self u (chunks, current)) (refused enc)
    (fun b =>
       (count enc (Py.join " " (current ++ [u])) <= chunk_limit self
        /\ b = (chunks, current ++ [u]))
       \/ (chunk_limit self < count enc (Py.join " " (current ++ [u]))
           /\ b = (chunks ++ [Py.join " " current],
                   [overlap_seed enc self
                      (encode_ordinary enc (Py.join " " current)); u]))).
Proof.
  unfold _add_to_chunks.
  apply (returns_bind _ _ _ _ _ (num_tokens_returns _)). intros n ->.
  destruct (count enc (Py.join " " (current ++ [u])) >? chunk_limit self) eqn:Hgt.
  - apply Z.gtb_lt in Hgt. destruct Hready as [He _]. rewrite He.
    apply (returns_bind _ _ _ _ _ (encode_returns enc _)). intros tokens ->.
    right. now split.
  - rewrite Z.gtb_ltb in Hgt. apply Z.ltb_ge in Hgt. left. now split.
Qed.

Lemma add_to_chunks_inv (words : list string) (u : string) (b : buffers) :
  chunk_inv words b ->
  returns (_add_to_chunks g self u b) (refused enc)
    (chunk_inv (words ++ Py.split_ws u)).
Proof.
  destruct b as [chunks current]. intros Hinv.
  apply (returns_weaken _ _ _ _ (add_to_chunks_returns u chunks current)).
  intros b' [[_ ->]|[_ ->]].
  - destruct Hinv as (parts & cur & Hc & Hcur & Hw & Hsf & Hsc). simpl in *.
    exists parts, (cur ++ [Unit u]). simpl. repeat split.
    + exact Hc.
    + now rewrite map_app, Hcur.
    + now rewrite unit_words_snoc, Hw.
    + exact Hsf.
    + now apply seed_first_snoc.
  - pose proof (chunk_inv_flush words chunks current
                  [Seed (overlap_seed enc self
                           (encode_ordinary enc (Py.join " " current))); Unit u]
                  Hinv) as H.
    simpl in H. rewrite app_nil_r in H. apply H. now repeat constructor.
Qed.

Lemma sub_step_inv (words : list string) (sub : string) (b : buffers) :
  chunk_inv words b ->
  returns (sub_step g self sub b) (refused enc)
    (chunk_inv (words ++ Py.split_ws sub)).
Proof.
  intros Hinv. unfold sub_step.
  destruct (Py.is_empty (Py.strip sub)) eqn:Eb.
  - simpl. now rewrite (PyFacts.split_ws_blank _ Eb), app_nil_r.
  - apply (returns_bind _ _ _ _ _ (num_tokens_returns _)). intros n ->.
    rewrite <- (PyFacts.split_ws_strip sub).
    destruct (count enc sub <=? chunk_limit self);
      [now apply add_to_chunks_inv|].
    destruct b as [chunks current].
    destruct (nonempty current) eqn:En; cbn [returns].
    + pose proof (chunk_inv_flush words chunks current [] Hinv I) as H.
      simpl in H. rewrite app_nil_r in H.
      destruct H as (parts & cur & Hc & Hcur & Hw & Hsf & Hsc). simpl in *.
      destruct cur; [|discriminate].
      exists (parts ++ [[Unit (Py.strip sub)]]), []. simpl. repeat split.
      * rewrite map_app, Hc. reflexivity.
      * rewrite app_nil_r in *. rewrite concat_app, flat_map_app, Hw.
        simpl. now rewrite !app_nil_r.
      * apply Forall_app. split; [exact Hsf|]. now repeat constructor.
    + apply nonempty_false in En. subst current.
      destruct Hinv as (parts & cur & Hc & Hcur & Hw & Hsf & Hsc).
      simpl in *. destruct cur; [|discriminate].
      exists (parts ++ [[Unit (Py.strip sub)]]), []. simpl. repeat split.
      * rewrite map_app, Hc. reflexivity.
      * rewrite app_nil_r in *. rewrite concat_app, flat_map_app, Hw.
        simpl. now rewrite !app_nil_r.
      * apply Forall_app. split; [exact Hsf|]. now repeat constructor.
Qed.

Lemma sentence_step_inv (words : list string) (sentence : string)
    (b : buffers) :
  chunk_inv words b ->
  returns (sentence_step g nl self sentence b) (refused enc)
    (chunk_inv (words ++ content_words enc nl self sentence)).
Proof.
  intros Hinv. unfold sentence_step, content_words.
  destruct (Py.is_empty (Py.strip sentence)).
  - simpl. now rewrite app_nil_r.
  - apply (returns_bind _ _ _ _ _ (num_tokens_returns _)). intros n ->.
    destruct (count enc (Py.strip sentence) >? chunk_limit_with_buffer self);
      cbn [andb]; [|now apply add_to_chunks_inv].
    unfold long_sentence_path.
    apply (returns_bind _ _ _ _ _
             (long_sentence_fragment_words (Py.strip sentence))).
    intros fragments Hwords. rewrite <- Hwords.
    pose proof (for_each_returns (sub_step g self) (refused enc)
                  (fun done b => chunk_inv (words ++ flat_map Py.split_ws done) b))
      as Hloop.
    apply (Hloop) with (l := fragments) (done := @nil string) (s := b).
    + intros done a s Hs. rewrite flat_map_app, app_assoc. simpl.
      rewrite app_nil_r. now apply sub_step_inv.
    + simpl. now rewrite app_nil_r.
Qed.

(** The sentence loop of [split] keeps the invariant. *)
Lemma sentence_loop_inv (sentences : list string) :
  returns (for_each (sentence_step g nl self) sentences ([], []))
    (refused enc)
    (chunk_inv (flat_map (content_words enc nl self) sentences)).
Proof.
  apply (for_each_returns (sentence_step g nl self) (refused enc)
           (fun done b =>
              chunk_inv (flat_map (content_words enc nl self) done) b))
    with (l := sentences) (done := @nil string)
         (s := (@nil string, @nil string)).
  - intros done a s Hs. rewrite flat_map_app. simpl. rewrite app_nil_r.
    now apply sentence_step_inv.
  - exists [], []. simpl. now repeat split.
Qed.

(** What [split] returns, in pieces: overlap seeds only at the head of a
    chunk, and the words of the other pieces are the content words of the
    sentences. *)
Lemma split_pieces (L : TextLibs) (text : string) :
  returns (split g L nl self text) (refused enc)
    (fun chunks =>
       exists parts,
         chunks = map render parts
         /\ Forall seed_first parts
         /\ flat_map unit_words (concat parts)
            = flat_map (content_words enc nl self) (sentences_of L nl text)).
Proof.
  unfold split.
  apply (returns_bind _ _ _ _ _ (sentence_loop_inv (sentences_of L nl text))).
  intros [chunks current] Hinv. cbn [returns].
  destruct (nonempty current) eqn:En.
  - pose proof (chunk_inv_flush _ chunks current [] Hinv I) as H.
    simpl in H. rewrite app_nil_r in H.
    destruct H as (parts & cur & Hc & Hcur & Hw & Hsf & Hsc). simpl in *.
    destruct cur; [|discriminate]. rewrite app_nil_r in Hw.
    exists parts. now rewrite Hc.
  - apply nonempty_false in En. subst current.
    destruct Hinv as (parts & cur & Hc & Hcur & Hw & Hsf & Hsc).
    simpl in *. destruct cur; [|discriminate]. rewrite app_nil_r in Hw.
    exists parts. now rewrite Hc.
Qed.

(** A text with a content word gives at least one chunk. *)
Lemma split_nonempty_when_content (L : TextLibs) (text : string) :
  flat_map (content_words enc nl self) (sentences_of L nl text) <> [] ->
  returns (split g L nl self text) (refused enc) (fun chunks => chunks <> []).
Proof.
  intros Hcontent.
  apply (returns_weaken _ _ _ _ (split_pieces L text)).
  intros chunks (parts & -> & _ & Hw) Hnil.
  apply map_eq_nil in Hnil. subst parts. now apply Hcontent.
Qed.

(** *** The threshold of the long path *)


End Initialized.

(** Without a sentence there is no chunk, whatever the engine. *)
Lemma split_without_sentences (g : globals) (L : TextLibs) (nl : Nltk)
    (self : SmartChunker) (text : string) :
  sentences_of L nl text = [] -> split g L nl self text = Ok [].
Proof. intros H. unfold split. now rewrite H. Qed.

End ChunkingFacts.

(** ** Normalization *)

Module HtmlStripperFacts.
Import HtmlStripper.

(** [clean_text_advanced] returns the empty text as it is, and otherwise
    the tidied printable characters of what the parser kept; it raises
    only what the parser raises. *)
Lemma clean_text_cases (L : TextLibs) (x : string) :
  returns (clean_text_advanced L x)
    (fun e => _strip_tags L (html_unescape L x) = Raise e)
    (fun y =>
       (x = "" /\ y = "")
       \/ exists kept,
            _strip_tags L (html_unescape L x) = Ok kept
            /\ y = Py.strip (Py.re_sub_ws
                               (Py.filter_chars Py.printable (nfkd L kept)))).
Proof.
  unfold clean_text_advanced. destruct (Py.is_empty x) eqn:E.
  - apply PyFacts.is_empty_true in E. subst x. simpl. now left.
  - destruct (_strip_tags L (html_unescape L x)) as [kept|e]; simpl.
    + right. now exists kept.
    + reflexivity.
Qed.

Lemma clean_text_printable (L : TextLibs) (x y : string) :
  clean_text_advanced L x = Ok y -> Py.all_chars Py.printable y = true.
Proof.
  intros H. pose proof (clean_text_cases L x) as C. rewrite H in C.
  destruct C as [[_ ->]|(kept & _ & ->)]; [reflexivity|].
  unfold Py.strip, Py.re_sub_ws.
  apply PyFacts.all_chars_rstrip, PyFacts.all_chars_lstrip,
    PyFacts.all_chars_collapse, PyFacts.all_chars_filter.
Qed.

Lemma clean_text_tidy (L : TextLibs) (x y : string) :
  clean_text_advanced L x = Ok y -> Py.strip (Py.re_sub_ws y) = y.
Proof.
  intros H. pose proof (clean_text_cases L x) as C. rewrite H in C.
  destruct C as [[_ ->]|(kept & _ & ->)]; [reflexivity|].
  apply PyFacts.tidy_idempotent.
Qed.

Section Normalization.

Variable L : TextLibs.

(** NFKD maps a string of printable ASCII characters to itself. *)
Hypothesis nfkd_printable :
  forall s, Py.all_chars Py.printable s = true -> nfkd L s = s.

(** C7, as amended: cleaning a second time changes nothing when the
    cleaned text is one that entity unescaping and tag stripping leave
    alone. *)
Theorem clean_text_idempotent_on_plain (x y : string) :
  clean_text_advanced L x = Ok y ->
  html_unescape L y = y ->
  _strip_tags L y = Ok y ->
  clean_text_advanced L y = Ok y.
Proof.
  intros Hx Hu Hs.
  pose proof (clean_text_printable L x y Hx) as Hp.
  unfold clean_text_advanced.
  destruct (Py.is_empty y); [reflexivity|].
  rewrite Hu, Hs. cbn [bind].
  rewrite (nfkd_printable _ Hp), (PyFacts.filter_all_chars _ _ Hp).
  f_equal. exact (clean_text_tidy L x y Hx).
Qed.

End Normalization.

Lemma clean_text_idempotent_on_plain_witness :
  clean_text_advanced Toy.text_libs Examples.markup = Ok "Hello, world and all."
  /\ clean_text_advanced Toy.text_libs "Hello, world and all."
     = Ok "Hello, world and all.".
Proof.
  split; [reflexivity|].
  apply (clean_text_idempotent_on_plain Toy.text_libs (fun s _ => eq_refl)
           Examples.markup "Hello, world and all.");
    reflexivity.
Defined.

(** C7 as stated fails: the first cleaning unescapes one level of
    entities, and the second one then sees a tag. *)
Lemma clean_text_not_idempotent :
  clean_text_advanced Toy.text_libs Examples.escaped_twice = Ok "<b> hi"
  /\ clean_text_advanced Toy.text_libs "<b> hi" = Ok "hi"
  /\ (once <- clean_text_advanced Toy.text_libs Examples.escaped_twice ;;
      clean_text_advanced Toy.text_libs once)
     <> clean_text_advanced Toy.text_libs Examples.escaped_twice.
Proof.
  split; [reflexivity | split; [reflexivity|]].
  intros H. vm_compute in H. discriminate H.
Qed.

End HtmlStripperFacts.

(** ** Errors *)

Module ErrorFacts.
Import Chunking Router.

Lemma strip_nonblank (s : string) :
  Py.is_empty (Py.strip s) = false -> Py.is_empty s = false.
Proof. destruct s; [discriminate | reflexivity]. Qed.

(** C9: before initialization the token count and the constructor both
    raise, and the error reaches the caller of the entry point. *)
Theorem uninitialized_engine_raises (g : globals) :
  is_initialized g = false ->
  (forall text, num_tokens g text
                = Raise (RuntimeError "Chunking service not initialized"))
  /\ (forall limit overlap, __init__ g limit overlap
        = Raise (RuntimeError
            "Chunking service not initialized. Call initialize_chunking_service() first."))
  /\ (forall L nl request,
        Py.is_empty (Py.strip (text request)) = false ->
        _chunk_text g L nl request
        = Raise (RuntimeError
            "Chunking service not initialized. Call initialize_chunking_service() first.")).
Proof.
  intros Hi. repeat split.
  - intros text. unfold num_tokens. now rewrite Hi.
  - intros limit overlap. unfold __init__. now rewrite Hi.
  - intros L nl request Hne. unfold _chunk_text, __init__.
    now rewrite Hne, (strip_nonblank _ Hne), Hi.
Qed.

Lemma uninitialized_engine_raises_witness :
  is_initialized at_import = false
  /\ num_tokens at_import "Hello world."
     = Raise (RuntimeError "Chunking service not initialized")
  /\ __init__ at_import 100 20
     = Raise (RuntimeError
         "Chunking service not initialized. Call initialize_chunking_service() first.").
Proof.
  split; [reflexivity|].
  destruct (uninitialized_engine_raises at_import eq_refl) as (Hn & Hc & _).
  split; [apply Hn | apply Hc].
Defined.

(** After [initialize_chunking_service] the engine is initialized. *)
Lemma initialize_then_ready (enc : Encoding) :
  exists g, initialize_chunking_service (Ok enc) at_import = Ok g
            /\ initialized g enc.
Proof. eexists. split; [reflexivity|]. now split. Qed.

(** *** The only [ValueError] after the validation is that of [encode] *)

Lemma bind_value_error {A B : Type} (g : globals) (r : result A)
    (k : A -> result B) :
  value_error_from_encode g r ->
  (forall a, value_error_from_encode g (k a)) ->
  value_error_from_encode g (bind r k).
Proof.
  intros Hr Hk. destruct r as [a|e]; simpl; [apply Hk|].
  intros msg H. apply (Hr msg). injection H as ->. reflexivity.
Qed.

Lemma ok_value_error {A : Type} (g : globals) (a : A) :
  value_error_from_encode g (Ok a).
Proof. intros msg H. discriminate. Qed.

Lemma for_each_value_error {A S : Type} (g : globals)
    (body : A -> S -> result S) :
  (forall a s, value_error_from_encode g (body a s)) ->
  forall l s, value_error_from_encode g (for_each body l s).
Proof.
  intros Hb. induction l as [|a l IH]; intros s; simpl.
  - apply ok_value_error.
  - now apply bind_value_error.
Qed.

Lemma encode_value_error {A : Type} (g : globals) (enc : Encoding)
    (text : string) (k : list (token enc) -> result A) :
  encoding g = Some enc ->
  (forall tokens, value_error_from_encode g (k tokens)) ->
  value_error_from_encode g (bind (encode enc text) k).
Proof.
  intros He Hk. unfold encode.
  destruct (disallowed_special enc text) as [m|] eqn:E; simpl; [|apply Hk].
  intros msg H. injection H as <-. now exists enc, text.
Qed.

Lemma num_tokens_value_error (g : globals) (text : string) :
  value_error_from_encode g (num_tokens g text).
Proof.
  unfold num_tokens.
  destruct (negb (is_initialized g)); [intros msg H; discriminate|].
  destruct (encoding g) as [enc|] eqn:He; [|intros msg H; discriminate].
  apply encode_value_error; [exact He|]. intros tokens. apply ok_value_error.
Qed.

Lemma init_value_error (g : globals) (limit overlap : Z) :
  value_error_from_encode g (__init__ g limit overlap).
Proof.
  unfold __init__. intros msg H.
  destruct (negb (is_initialized g)); discriminate.
Qed.

Create HintDb value_error.

#[local] Hint Resolve ok_value_error num_tokens_value_error
  init_value_error : value_error.

Lemma add_to_chunks_value_error g self u b :
  value_error_from_encode g (_add_to_chunks g self u b).
Proof.
  destruct b as [chunks current]. unfold _add_to_chunks.
  apply bind_value_error; auto with value_error.
  intros n. destruct (n >? chunk_limit self); auto with value_error.
  destruct (encoding g) as [enc|] eqn:He; [|intros msg H; discriminate].
  apply encode_value_error; [exact He|]. intros tokens. apply ok_value_error.
Qed.

Lemma word_step_value_error g self w b :
  value_error_from_encode g (word_step g self w b).
Proof.
  destruct b as [wc cw]. unfold word_step.
  apply bind_value_error; auto with value_error.
  intros n. destruct ((n >? chunk_limit self) && nonempty cw);
    auto with value_error.
Qed.

Lemma split_long_value_error g nl self s :
  value_error_from_encode g (_split_long_sentence g nl self s).
Proof.
  unfold _split_long_sentence.
  destruct (List.length (words_of nl s) <=? 1)%nat; auto with value_error.
  apply bind_value_error.
  - apply for_each_value_error. intros. apply word_step_value_error.
  - intros [wc cw]. auto with value_error.
Qed.

Lemma sub_step_value_error g self sub b :
  value_error_from_encode g (sub_step g self sub b).
Proof.
  unfold sub_step. destruct (Py.is_empty (Py.strip sub));
    auto with value_error.
  apply bind_value_error; auto with value_error.
  intros n. destruct (n <=? chunk_limit self).
  - apply add_to_chunks_value_error.
  - destruct b as [chunks current]. destruct (nonempty current);
      auto with value_error.
Qed.

Lemma sentence_step_value_error g nl self s b :
  value_error_from_encode g (sentence_step g nl self s b).
Proof.
  unfold sentence_step. destruct (Py.is_empty (Py.strip s));
    auto with value_error.
  apply bind_value_error; auto with value_error.
  intros n. destruct (n >? chunk_limit_with_buffer self).
  - unfold long_sentence_path. apply bind_value_error.
    + apply split_long_value_error.
    + intros subs. apply for_each_value_error.
      intros. apply sub_step_value_error.
  - apply add_to_chunks_value_error.
Qed.

Lemma split_value_error g L nl self text :
  value_error_from_encode g (split g L nl self text).
Proof.
  unfold split. apply bind_value_error.
  - apply for_each_value_error. intros. apply sentence_step_value_error.
  - intros [chunks current]. auto with value_error.
Qed.

Lemma sum_tokens_value_error g chunks :
  value_error_from_encode g (sum_tokens g chunks).
Proof.
  unfold sum_tokens. apply for_each_value_error. intros chunk acc.
  apply bind_value_error; auto with value_error.
Qed.

(** C6, as amended: the entry point raises its validation error on a
    text that is empty or whitespace-only, whatever the state of the
    engine and whatever the limit, and on no other text: on a text that is
    not blank the only [ValueError] is the one that [encode] raises on a
    text that holds a special token. *)
Theorem validation_error_iff_blank_text (g : globals) (L : TextLibs)
    (nl : Nltk) (request : ChunkRequest) :
  (Py.is_empty (Py.strip (text request)) = true ->
     _chunk_text g L nl request
     = Raise (ValueError "Text content cannot be empty"))
  /\ (Py.is_empty (Py.strip (text request)) = false ->
      forall msg,
        _chunk_text g L nl request = Raise (ValueError msg) ->
        exists enc refused_text,
          encoding g = Some enc
          /\ disallowed_special enc refused_text = Some msg).
Proof.
  unfold _chunk_text. split.
  - intros Hb. now rewrite Hb, orb_true_r.
  - intros Hb. rewrite Hb, (strip_nonblank _ Hb). cbn [orb].
    apply bind_value_error; [apply init_value_error|].
    intros chunker. apply bind_value_error; [apply split_value_error|].
    intros chunks. apply bind_value_error; [apply sum_tokens_value_error|].
    intros total. apply ok_value_error.
Qed.

(** C6 as stated fails: a limit of zero is not rejected. *)
Lemma zero_limit_is_not_rejected :
  ~ (raises_value_error
       (_chunk_text Toy.ready Toy.text_libs Toy.nltk
          (Examples.request "Hello world. Bye." 0 0))
     <-> (Py.is_empty (Py.strip (text (Examples.request "Hello world. Bye." 0 0)))
          = true
          \/ chunk_token_limit (Examples.request "Hello world. Bye." 0 0) <= 0)).
Proof.
  intros [_ H]. destruct H as [msg H].
  - right. simpl. lia.
  - vm_compute in H. discriminate H.
Qed.

End ErrorFacts.

(** ** The overlap seed *)

Module OverlapFacts.
Import Chunking.

(** With a positive overlap the seed is the decoding of the last
    [overlap] tokens of the closed chunk, or of all of them when there are
    fewer. *)
Lemma overlap_seed_positive (enc : Encoding) (self : SmartChunker)
    (tokens : list (token enc)) :
  0 < overlap self ->
  overlap_seed enc self tokens
  = Py.strip (decode enc
      (skipn (List.length tokens - Z.to_nat (overlap self)) tokens)).
Proof.
  intros Hpos. unfold overlap_seed, Py.slice_from.
  destruct (- overlap self <? 0) eqn:E; [|apply Z.ltb_ge in E; lia].
  do 3 f_equal. lia.
Qed.

(** With an overlap of zero, [tokens[-0:]] is [tokens[0:]]: the seed is the
    decoding of every token of the closed chunk. *)
Lemma overlap_seed_zero (enc : Encoding) (self : SmartChunker)
    (tokens : list (token enc)) :
  overlap self = 0 ->
  overlap_seed enc self tokens = Py.strip (decode enc tokens).
Proof.
  intros H0. unfold overlap_seed, Py.slice_from. rewrite H0. simpl.
  rewrite Z.min_l by lia. reflexivity.
Qed.

End OverlapFacts.

(** ** Evaluations *)

Module Evaluations.
Import Chunking Router Examples.

(** C1 fails on the code: with limit 10 and overlap 5, the second chunk
    is the five-token seed and a nine-token sentence, fourteen tokens. *)
Theorem seeded_chunk_exceeds_limit :
  Toy.split 10 5 two_sentences
  = Ok [hill; "ran over the hill. A small cat sat under the old tree."]
  /\ Toy.count hill = 9
  /\ Toy.count tree = 9
  /\ Toy.count "ran over the hill. A small cat sat under the old tree." = 14.
Proof. repeat split; vm_compute; reflexivity. Qed.

(** C2 fails on the code: with overlap 0 the buffer is re-seeded with
    the whole closed chunk, and the next chunk repeats it. *)
Theorem zero_overlap_reseeds_whole_chunk :
  _add_to_chunks Toy.ready (Toy.chunker 10 0) tree ([], [hill])
  = Ok ([hill], [hill; tree])
  /\ Toy.split 10 0 two_sentences
     = Ok [hill;
           "The big brown dog ran over the hill. A small cat sat under the old tree."].
Proof. split; vm_compute; reflexivity. Qed.

(** C3 fails on the code: a first sentence of eleven tokens with limit
    10 closes the empty buffer, and an empty chunk is returned. *)
Theorem empty_chunk_is_returned :
  Toy.count eleven_tokens = 11
  /\ Toy.split 10 2 eleven_tokens
     = Ok [""; " one two three four five six seven eight nine ten."].
Proof. split; vm_compute; reflexivity. Qed.

(** C4 fails on the code: a text that passes the validation and has no
    printable character gives no chunk at all. *)
Theorem unprintable_text_gives_no_chunk :
  Py.is_empty (Py.strip copyright_sign) = false
  /\ _chunk_text Toy.ready Toy.text_libs Toy.nltk (request copyright_sign 200 50)
     = Ok {| status := "success";
             message := "Text successfully chunked into 0 chunks";
             chunks := [];
             total_chunks := 0;
             total_tokens := 0 |}.
Proof. split; vm_compute; reflexivity. Qed.

(** The fallbacks, when NLTK raises: the regular-expression sentence
    split drops the terminators, and the words are split at whitespace. *)
Example split_with_fallbacks :
  Chunking.split Toy.ready Toy.text_libs Toy.nltk_missing (Toy.chunker 3 1)
    "Red green blue pink. Done!  "
  = Ok ["Red green blue"; "blue pink"; "pink Done!"].
Proof. vm_compute. reflexivity. Qed.

(** When the parser raises, the raw text is split by the fallback: the
    markup stays in the chunk. *)
Example split_when_cleaning_raises :
  HtmlStripper.clean_text_advanced Toy.text_libs marked_section
  = Raise (AssertionError "unknown status keyword in marked section")
  /\ Chunking.split Toy.ready Toy.text_libs Toy.nltk (Toy.chunker 100 20)
       marked_section
     = Ok ["<![foo[bar]]> Hello world Bye."].
Proof. split; vm_compute; reflexivity. Qed.

(** A text that holds a special token passes the validation and the
    cleaning, and [encode] raises on it. *)
Example special_token_is_refused :
  Py.is_empty (Py.strip (text (request endoftext 100 20))) = false
  /\ HtmlStripper.clean_text_advanced Toy.text_libs endoftext = Ok endoftext
  /\ _chunk_text Toy.ready Toy.text_libs Toy.nltk (request endoftext 100 20)
     = Raise (ValueError
         "Encountered text corresponding to disallowed special token '<|endoftext|>'.").
Proof. repeat split; vm_compute; reflexivity. Qed.

Lemma long_sentence_fragments_bounded_witness :
  (2 <= List.length (words_of Toy.nltk greek))%nat
  /\ exists groups,
       _split_long_sentence Toy.ready Toy.nltk (Toy.chunker 3 1) greek
       = Ok (map (Py.join " ") groups)
       /\ concat groups = words_of Toy.nltk greek
       /\ Forall (fun grp => grp <> []) groups
       /\ (forall grp, In grp groups -> (2 <= List.length grp)%nat ->
             count Toy.word_pieces (Py.join " " grp) <= 3)
       /\ (forall grp, In grp groups ->
             3 < count Toy.word_pieces (Py.join " " grp) ->
             exists word, grp = [word]).
Proof.
  assert (H : (2 <= List.length (words_of Toy.nltk greek))%nat)
    by (vm_compute; lia).
  split; [exact H|].
  pose proof (ChunkingFacts.long_sentence_fragments_bounded Toy.ready
                Toy.word_pieces Toy.nltk (Toy.chunker 3 1)
                (conj eq_refl eq_refl) greek H) as T.
  destruct (_split_long_sentence Toy.ready Toy.nltk (Toy.chunker 3 1) greek)
    as [fragments|e] eqn:E.
  - destruct T as (groups & -> & T).
  exists groups. split; [reflexivity | exact T].
  - vm_compute in E. discriminate E.
Defined.


End Evaluations.

(** * Properties of the rest of the code *)

(** ** Word-based splitting *)

Module SplitByWordsFacts.
Import Chunking ChunkingMore.
#[local] Open Scope list_scope.

Lemma overlap_chain_snoc (self : SmartChunker) (groups : list word_group)
    (prev : list string) (grp : word_group) :
  overlap_chain self prev (groups ++ [grp])
  <-> overlap_chain self prev groups
      /\ fst grp = overlap_words self (last_group_words prev groups).
Proof.
  revert prev. induction groups as [|g0 groups IH]; intros prev; simpl.
  - tauto.
  - rewrite IH. unfold last_group_words. simpl. tauto.
Qed.

Lemma last_group_words_snoc (prev : list string) (groups : list word_group)
    (grp : word_group) :
  last_group_words prev (groups ++ [grp]) = group_words grp.
Proof. unfold last_group_words. now rewrite fold_left_app. Qed.

Section Initialized.

Variable g : globals.
Variable enc : Encoding.
Variable nl : Nltk.
Variable self : SmartChunker.
Hypothesis Hready : initialized g enc.

Lemma overlap_words_nil : overlap_words self [] = [].
Proof.
  unfold overlap_words. simpl.
  destruct (Z.min 0 (overlap self) >? 0) eqn:E; [|reflexivity].
  apply Z.gtb_lt in E. lia.
Qed.

(** While nothing is closed and nothing is new, the buffer is empty. *)
Lemma by_words_fresh_nonempty (done : list string) (chunks cw : list string)
    (closed : list word_group) (o f : list string) :
  cw = o ++ f ->
  concat (map snd closed) ++ f = done ->
  overlap_chain self [] (closed ++ [(o, f)]) ->
  Forall (fun grp : word_group => snd grp <> []) closed ->
  (done <> [] -> f <> []) ->
  cw <> [] -> f <> [].
Proof.
  intros Hcw Hdone Hchain Hne Hf Hcwne.
  destruct done as [|w done]; [|apply Hf; discriminate].
  apply app_eq_nil in Hdone as [Hclosed ->].
  destruct closed as [|[o0 f0] closed].
  - simpl in Hchain. destruct Hchain as [Ho _]. simpl in Ho.
    rewrite overlap_words_nil in Ho. subst o. now rewrite app_nil_r in Hcw.
  - exfalso. inversion Hne as [|? ? Hf0 _]; subst. simpl in *.
    apply app_eq_nil in Hclosed as [-> _]. now apply Hf0.
Qed.

Lemma by_words_step_inv (done : list string) (word : string) (b : buffers) :
  by_words_inv enc self done b ->
  returns (by_words_step g self word b) (refused enc)
    (by_words_inv enc self (done ++ [word])).
Proof.
  destruct b as [chunks cw].
  intros (closed & [o f] & Hc & Hcw & Hdone & Hchain & Hne & Hbound & Hf).
  simpl in *. unfold group_words in Hcw. simpl in Hcw.
  unfold by_words_step.
  apply (returns_bind _ _ _ _ _
           (ChunkingFacts.num_tokens_returns g enc Hready _)).
  intros n ->.
  destruct (count enc (Py.join " " (cw ++ [word])) >? chunk_limit self) eqn:Hgt;
    cbn [andb].
  - destruct (nonempty cw) eqn:Hn; cbn [returns].
    + apply nonempty_true in Hn.
      exists (closed ++ [(o, f)]), (overlap_words self cw, [word]).
      simpl. repeat split.
      * rewrite map_app, Hc, Hcw. reflexivity.
      * rewrite map_app, concat_app. simpl. now rewrite app_nil_r, <- Hdone.
      * apply overlap_chain_snoc. split; [exact Hchain|].
        simpl. now rewrite last_group_words_snoc, Hcw.
      * apply Forall_app. split; [exact Hne|].
        constructor; [|constructor]. simpl.
        now apply (by_words_fresh_nonempty done chunks cw closed o f).
      * intros grp Hin Hlen. apply in_app_or in Hin as [Hin|[<-|[]]].
        -- now apply Hbound.
        -- simpl in Hlen. lia.
      * discriminate.
    + apply nonempty_false in Hn. rewrite Hn in *. clear Hn.
      symmetry in Hcw. apply app_eq_nil in Hcw as [-> ->].
      exists closed, ([], [word]). simpl. repeat split; try assumption.
      * now rewrite <- Hdone, app_nil_r.
      * apply overlap_chain_snoc. apply overlap_chain_snoc in Hchain.
        simpl in *. tauto.
      * intros grp Hin Hlen. apply in_app_or in Hin as [Hin|[<-|[]]].
        -- apply Hbound; [|exact Hlen]. apply in_or_app. now left.
        -- simpl in Hlen. lia.
      * discriminate.
  - cbn [returns].
    exists closed, (o, f ++ [word]). simpl. repeat split; try assumption.
    + unfold group_words. simpl. now rewrite Hcw, app_assoc.
    + now rewrite <- Hdone, app_assoc.
    + apply overlap_chain_snoc. apply overlap_chain_snoc in Hchain.
      simpl in *. tauto.
    + intros grp Hin Hlen. apply in_app_or in Hin as [Hin|[<-|[]]].
      * apply Hbound; [|exact Hlen]. apply in_or_app. now left.
      * unfold group_words. simpl. rewrite app_assoc, <- Hcw.
        rewrite Z.gtb_ltb in Hgt. now apply Z.ltb_ge in Hgt.
    + intros _. now destruct f.
Qed.

(** What [_split_by_words] returns, in groups. *)
Lemma split_by_words_structure (text : string) :
  returns (_split_by_words g nl self text) (refused enc)
    (fun chunks =>
       exists groups : list word_group,
         chunks = map (fun grp => Py.join " " (group_words grp)) groups
         /\ concat (map snd groups) = words_of nl text
         /\ overlap_chain self [] groups
         /\ Forall (fun grp => snd grp <> []) groups
         /\ (forall grp, In grp groups -> (2 <= List.length (snd grp))%nat ->
               count enc (Py.join " " (group_words grp)) <= chunk_limit self)).
Proof.
  unfold _split_by_words.
  apply (returns_bind _ _ _ (by_words_inv enc self (words_of nl text))).
  { apply (for_each_returns (by_words_step g self) (refused enc)
             (by_words_inv enc self) by_words_step_inv
             (words_of nl text) [] ([], [])).
    exists [], ([], []). simpl. repeat split; try constructor.
    - now rewrite overlap_words_nil.
    - intros grp [<-|[]] H. simpl in H. lia.
    - congruence. }
  intros [chunks cw]
    (closed & [o f] & Hc & Hcw & Hdone & Hchain & Hne & Hbound & Hf).
  simpl in *. unfold group_words in Hcw. simpl in Hcw.
  destruct (nonempty cw) eqn:Hn.
  - apply nonempty_true in Hn.
    exists (closed ++ [(o, f)]). repeat split.
    + rewrite map_app, Hc, Hcw. reflexivity.
    + rewrite map_app, concat_app. simpl. now rewrite app_nil_r.
    + exact Hchain.
    + apply Forall_app. split; [exact Hne|].
      constructor; [|constructor]. simpl.
      now apply (by_words_fresh_nonempty (words_of nl text) chunks cw closed o f).
    + exact Hbound.
  - apply nonempty_false in Hn. rewrite Hn in *. clear Hn.
    symmetry in Hcw. apply app_eq_nil in Hcw as [-> ->].
    exists closed. repeat split.
    + now rewrite Hc.
    + now rewrite app_nil_r in Hdone.
    + apply overlap_chain_snoc in Hchain. tauto.
    + exact Hne.
    + intros grp Hin. apply Hbound. apply in_or_app. now left.
Qed.

(** The chunks that [_split_by_words] returns are the joins of groups of
    words; each group starts with the overlap words of the group before it
    (the first with none), every group has a new word, and the new words
    of the groups are the words of the text, in order.  The call raises
    only when [encode] refuses a text. *)
Theorem split_by_words_keeps_words (text : string) :
  match _split_by_words g nl self text with
  | Ok chunks =>
      exists groups : list word_group,
        chunks = map (fun grp => Py.join " " (group_words grp)) groups
        /\ concat (map snd groups) = words_of nl text
        /\ overlap_chain self [] groups
        /\ Forall (fun grp => snd grp <> []) groups
  | Raise e => refused enc e
  end.
Proof.
  apply (returns_weaken _ _ _ _ (split_by_words_structure text)).
  intros chunks (groups & H1 & H2 & H3 & H4 & _).
  exists groups. now repeat split.
Qed.

(** A chunk of [_split_by_words] with two new words or more is within the
    limit: only a chunk that is its overlap words and a single new word
    can be above it. *)
Theorem split_by_words_within_limit (text : string) :
  match _split_by_words g nl self text with
  | Ok chunks =>
      exists groups : list word_group,
        chunks = map (fun grp => Py.join " " (group_words grp)) groups
        /\ concat (map snd groups) = words_of nl text
        /\ (forall grp, In grp groups ->
              chunk_limit self < count enc (Py.join " " (group_words grp)) ->
              exists word, snd grp = [word])
  | Raise e => refused enc e
  end.
Proof.
  apply (returns_weaken _ _ _ _ (split_by_words_structure text)).
  intros chunks (groups & H1 & H2 & _ & Hne & Hbound).
  exists groups. repeat split; try assumption.
  intros [o f] Hin Hover. simpl.
  destruct f as [|word [|word' rest]].
  - rewrite Forall_forall in Hne. now destruct (Hne _ Hin).
  - now exists word.
  - specialize (Hbound _ Hin). simpl in Hbound.
    assert (count enc (Py.join " " (group_words (o, word :: word' :: rest)))
            <= chunk_limit self) by (apply Hbound; lia).
    lia.
Qed.

Lemma overlap_words_none (words : list string) :
  overlap self <= 0 -> overlap_words self words = [].
Proof.
  intros H. unfold overlap_words.
  destruct (Z.min (Z.of_nat (List.length words)) (overlap self) >? 0) eqn:E;
    [|reflexivity].
  apply Z.gtb_lt in E. lia.
Qed.

Lemma overlap_chain_none (groups : list word_group) (prev : list string) :
  overlap self <= 0 ->
  overlap_chain self prev groups ->
  map group_words groups = map snd groups.
Proof.
  intros H0. revert prev.
  induction groups as [|[o f] groups IH]; intros prev Hchain; [reflexivity|].
  simpl in *. destruct Hchain as [Ho Hrest].
  rewrite (overlap_words_none prev H0) in Ho. subst o.
  now rewrite (IH _ Hrest).
Qed.

(** With an overlap of zero [_split_by_words] repeats nothing: the chunks
    are the joins of consecutive non-empty groups of the words. *)
Theorem split_by_words_without_overlap (text : string) :
  overlap self <= 0 ->
  match _split_by_words g nl self text with
  | Ok chunks =>
      exists groups : list (list string),
        chunks = map (Py.join " ") groups
        /\ concat groups = words_of nl text
        /\ Forall (fun grp => grp <> []) groups
  | Raise e => refused enc e
  end.
Proof.
  intros H0.
  apply (returns_weaken _ _ _ _ (split_by_words_structure text)).
  intros chunks (groups & H1 & H2 & H3 & H4 & _).
  exists (map snd groups). repeat split.
  - rewrite H1, <- (overlap_chain_none groups [] H0 H3).
    now rewrite map_map.
  - exact H2.
  - apply Forall_map. exact H4.
Qed.

End Initialized.
End SplitByWordsFacts.

(** ** Strings, continued *)

Module PyMoreFacts.
Import Py PyFacts.

(** *** [strip] *)

Lemma lstrip_head (s : string) :
  lstrip s = "" \/ exists c r, lstrip s = String c r /\ isspace c = false.
Proof.
  induction s as [|c s IH]; [now left|].
  simpl. destruct (isspace c) eqn:E; [exact IH|].
  right. now exists c, s.
Qed.

Lemma lstrip_strip (s : string) : lstrip (strip s) = strip s.
Proof.
  unfold strip. destruct (lstrip_head s) as [->|(c & r & -> & Hc)];
    [reflexivity|].
  rewrite rstrip_cons, Hc, andb_false_r. simpl. now rewrite Hc.
Qed.

Lemma strip_strip (s : string) : strip (strip s) = strip s.
Proof.
  unfold strip at 1. rewrite lstrip_strip. unfold strip.
  apply rstrip_rstrip.
Qed.

(** *** [re.sub(r'\s+', ' ', s).strip()] is [' '.join(s.split())] *)

Lemma split_ws_from_nonempty (s cur : string) :
  Forall (fun w => is_empty w = false) (split_ws_from cur s).
Proof.
  revert cur. induction s as [|c s IH]; intros cur; simpl.
  - destruct (is_empty cur) eqn:E; repeat constructor. exact E.
  - destruct (isspace c); [|apply IH].
    destruct (is_empty cur) eqn:E; [apply IH|].
    constructor; [exact E | apply IH].
Qed.

Lemma join_cons_nonempty (w : string) (l : list string) :
  is_empty w = false -> is_empty (join " " (w :: l)) = false.
Proof. intros H. destruct w; [discriminate|]. now destruct l. Qed.

Lemma string_app_cons (a : string) (c : ascii) (b : string) :
  ((a ++ String c "") ++ b = a ++ String c b)%string.
Proof. induction a as [|x a IH]; simpl; [reflexivity | now rewrite IH]. Qed.

Lemma string_app_empty_r (a : string) : (a ++ "")%string = a.
Proof. induction a as [|x a IH]; simpl; [reflexivity | now rewrite IH]. Qed.

Lemma is_empty_app_cons (a : string) (c : ascii) :
  is_empty (a ++ String c "") = false.
Proof. now destruct a. Qed.

Lemma join_split_ws_from (s : string) :
  (forall cur, is_empty cur = false ->
     join " " (split_ws_from cur s)
     = (cur ++ rstrip (collapse_from false s))%string)
  /\ join " " (split_ws s) = rstrip (collapse_from true s).
Proof.
  induction s as [|c s [IH1 IH2]]; split.
  - intros cur Hcur. simpl. rewrite Hcur. simpl.
    now rewrite string_app_empty_r.
  - reflexivity.
  - intros cur Hcur. simpl. destruct (isspace c) eqn:Ec.
    + rewrite Hcur, rstrip_cons. fold (split_ws s).
      pose proof (split_ws_from_nonempty s "") as Hne. fold (split_ws s) in Hne.
      destruct (split_ws s) as [|w l] eqn:Es.
      * simpl in IH2. rewrite <- IH2. simpl. now rewrite string_app_empty_r.
      * inversion Hne as [|? ? Hw _]; subst.
        rewrite <- IH2, (join_cons_nonempty w l Hw). simpl.
        destruct l; reflexivity.
    + rewrite IH1 by apply is_empty_app_cons.
      rewrite rstrip_cons, Ec, andb_false_r. apply string_app_cons.
  - unfold split_ws. simpl. destruct (isspace c) eqn:Ec.
    + exact IH2.
    + rewrite IH1 by reflexivity.
      rewrite rstrip_cons, Ec, andb_false_r. reflexivity.
Qed.

(** Collapsing the whitespace and stripping gives the words joined by
    single spaces. *)
Lemma strip_collapse_is_join_split (s : string) :
  strip (re_sub_ws s) = join " " (split_ws s).
Proof.
  unfold strip, re_sub_ws. rewrite lstrip_collapse.
  symmetry. apply join_split_ws_from.
Qed.

End PyMoreFacts.

(** ** The fallback sentence split *)

Module FallbackFacts.
Import Py PyFacts PyMore Chunking.

Lemma filter_chars_app (p : ascii -> bool) (a b : string) :
  filter_chars p (a ++ b) = (filter_chars p a ++ filter_chars p b)%string.
Proof.
  induction a as [|c a IH]; [reflexivity|].
  simpl. destruct (p c); simpl; now rewrite IH.
Qed.

Lemma content_chars_app (a b : string) :
  content_chars (a ++ b) = (content_chars a ++ content_chars b)%string.
Proof. apply filter_chars_app. Qed.

Lemma content_chars_lstrip (s : string) :
  content_chars (lstrip s) = content_chars s.
Proof.
  induction s as [|c s IH]; [reflexivity|].
  simpl. destruct (isspace c) eqn:E; [|reflexivity].
  rewrite IH. unfold content_chars. simpl. unfold is_separator_char.
  now rewrite E, orb_true_r.
Qed.

Lemma content_chars_rstrip (s : string) :
  content_chars (rstrip s) = content_chars s.
Proof.
  induction s as [|c s IH]; [reflexivity|].
  rewrite rstrip_cons. destruct (is_empty (rstrip s)) eqn:E; simpl.
  - destruct (isspace c) eqn:Ec.
    + apply is_empty_true in E. rewrite E in IH.
      unfold content_chars in *. simpl. unfold is_separator_char.
      now rewrite Ec, orb_true_r.
    + unfold content_chars in *. simpl. now rewrite IH.
  - unfold content_chars in *. simpl. now rewrite IH.
Qed.

Lemma content_chars_strip (s : string) :
  content_chars (strip s) = content_chars s.
Proof. unfold strip. now rewrite content_chars_rstrip, content_chars_lstrip. Qed.

Lemma count_while_prefix (p : ascii -> bool) (s : string) :
  (forall c, p c = true -> is_separator_char c = true) ->
  forall n, (n <= count_while p s)%nat -> separator_prefix n s = true.
Proof.
  intros Hp. induction s as [|c s IH]; intros n Hn.
  - simpl in Hn. now replace n with O by lia.
  - destruct n as [|n]; [reflexivity|]. simpl in *.
    destruct (p c) eqn:E; [|lia].
    rewrite (Hp c E). simpl. apply IH. lia.
Qed.

Lemma separator_prefix_add (n m : nat) (s : string) :
  separator_prefix n s = true ->
  separator_prefix m (drop n s) = true ->
  separator_prefix (n + m) s = true.
Proof.
  revert s. induction n as [|n IH]; intros s Hn Hm; [exact Hm|].
  destruct s as [|c s]; [discriminate|]. simpl in *.
  apply andb_prop in Hn as [Hc Hn]. rewrite Hc. simpl. now apply IH.
Qed.

Lemma separator_at_prefix (s : string) (n : nat) :
  separator_at s = Some n -> separator_prefix n s = true.
Proof.
  unfold separator_at.
  destruct (count_while is_terminator s) as [|p] eqn:Ep; [discriminate|].
  destruct (count_while isspace (drop (S p) s)) as [|w] eqn:Ew; [discriminate|].
  intros H. injection H as <-.
  change (S (p + S w)) with (S p + S w)%nat.
  apply separator_prefix_add.
  - apply (count_while_prefix is_terminator).
    + intros c Hc. unfold is_separator_char. now rewrite Hc.
    + lia.
  - apply (count_while_prefix isspace).
    + intros c Hc. unfold is_separator_char. now rewrite Hc, orb_true_r.
    + lia.
Qed.

Lemma join_empty_cons (x : string) (l : list string) :
  join "" (x :: l) = (x ++ join "" l)%string.
Proof.
  destruct l as [|y l]; simpl.
  - induction x as [|c x IH]; simpl; [reflexivity | now rewrite <- IH].
  - reflexivity.
Qed.

Lemma content_chars_cons_separator (c : ascii) (s : string) :
  is_separator_char c = true -> content_chars (String c s) = content_chars s.
Proof. intros H. unfold content_chars. simpl. now rewrite H. Qed.

Lemma content_chars_push (cur : string) (c : ascii) (s : string) :
  (content_chars (cur ++ String c "") ++ content_chars s)%string
  = (content_chars cur ++ content_chars (String c s))%string.
Proof.
  rewrite content_chars_app. unfold content_chars. simpl.
  destruct (negb (is_separator_char c)); simpl.
  - induction (filter_chars (fun c0 => negb (is_separator_char c0)) cur)
      as [|x a IH]; simpl; [reflexivity | now rewrite IH].
  - induction (filter_chars (fun c0 => negb (is_separator_char c0)) cur)
      as [|x a IH]; simpl; [reflexivity | now rewrite IH].
Qed.

(** [re.split] only removes separator characters. *)
Lemma re_split_content (s : string) (skip : nat) (cur : string) :
  separator_prefix skip s = true ->
  content_chars (join "" (re_split_from skip cur s))
  = (content_chars cur ++ content_chars s)%string.
Proof.
  revert skip cur. induction s as [|c s IH]; intros skip cur Hskip.
  - simpl. induction (content_chars cur) as [|x a IHa]; simpl;
      [reflexivity | now rewrite <- IHa].
  - cbn [re_split_from]. destruct skip as [|k].
    + destruct (separator_at (String c s)) as [[|k]|] eqn:Esep.
      * rewrite (IH O) by reflexivity. apply content_chars_push.
      * apply separator_at_prefix in Esep. cbn [separator_prefix] in Esep.
        apply andb_prop in Esep as [Hc Hk].
        rewrite join_empty_cons, content_chars_app, (IH k "" Hk).
        now rewrite (content_chars_cons_separator c s Hc).
      * rewrite (IH O) by reflexivity. apply content_chars_push.
    + cbn [separator_prefix] in Hskip. apply andb_prop in Hskip as [Hc Hk].
      rewrite (IH k cur Hk). now rewrite (content_chars_cons_separator c s Hc).
Qed.

Lemma content_chars_blank (s : string) :
  is_empty (strip s) = true -> content_chars s = "".
Proof.
  intros H. apply is_empty_true in H.
  now rewrite <- content_chars_strip, H.
Qed.

Lemma stripped_pieces_content (l : list string) :
  content_chars
    (join "" (map strip (filter (fun s => negb (is_empty (strip s))) l)))
  = content_chars (join "" l).
Proof.
  induction l as [|x l IH]; [reflexivity|].
  rewrite (join_empty_cons x l), content_chars_app. cbn [filter].
  destruct (is_empty (strip x)) eqn:E; cbn [negb map].
  - now rewrite IH, (content_chars_blank x E).
  - now rewrite join_empty_cons, content_chars_app, IH, content_chars_strip.
Qed.

Lemma simple_sentence_split_content (text : string) :
  content_chars (join "" (_simple_sentence_split text)) = content_chars text.
Proof.
  unfold _simple_sentence_split, re_split_sentences.
  rewrite stripped_pieces_content.
  now rewrite (re_split_content text O "").
Qed.

(** The fallback sentence split keeps, in order, every character that is
    neither a sentence terminator nor whitespace. *)
Theorem simple_sentence_split_keeps_content (text : string) :
  content_chars (join "" (_simple_sentence_split text)) = content_chars text.
Proof. apply simple_sentence_split_content. Qed.

(** Every sentence of the fallback split is non-empty and has no
    whitespace at either end. *)
Theorem simple_sentence_split_trimmed (text sentence : string) :
  In sentence (_simple_sentence_split text) ->
  sentence <> "" /\ strip sentence = sentence.
Proof.
  unfold _simple_sentence_split. intros H.
  apply in_map_iff in H as (piece & <- & Hin).
  apply filter_In in Hin as [_ Hne].
  split.
  - intros E. rewrite E in Hne. discriminate.
  - apply PyMoreFacts.strip_strip.
Qed.

End FallbackFacts.

(** ** Cleaning, initialization and the entry point *)

Module CleanTextFacts.
Import Py PyFacts HtmlStripper.

(** The cleaned text holds printable characters only; the call raises
    only what the parser raises on the unescaped text. *)
Theorem clean_text_all_printable (L : TextLibs) (text : string) :
  match clean_text_advanced L text with
  | Ok cleaned => all_chars printable cleaned = true
  | Raise e => _strip_tags L (html_unescape L text) = Raise e
  end.
Proof.
  destruct (clean_text_advanced L text) as [cleaned|e] eqn:H.
  - exact (HtmlStripperFacts.clean_text_printable L text cleaned H).
  - pose proof (HtmlStripperFacts.clean_text_cases L text) as C.
    now rewrite H in C.
Qed.

(** The cleaned text is its own words joined by single spaces: no
    whitespace at either end, and between two words exactly one space. *)
Theorem clean_text_single_spaced (L : TextLibs) (text : string) :
  match clean_text_advanced L text with
  | Ok cleaned => cleaned = join " " (split_ws cleaned)
  | Raise e => _strip_tags L (html_unescape L text) = Raise e
  end.
Proof.
  destruct (clean_text_advanced L text) as [cleaned|e] eqn:H.
  - rewrite <- PyMoreFacts.strip_collapse_is_join_split.
    symmetry. exact (HtmlStripperFacts.clean_text_tidy L text cleaned H).
  - pose proof (HtmlStripperFacts.clean_text_cases L text) as C.
    now rewrite H in C.
Qed.

End CleanTextFacts.

Module EngineFacts.
Import Chunking Router.

(** Initialization happens once: from an engine that is not initialized a
    successful call installs the encoding, every later call leaves the
    engine as it is, whatever [get_encoding] would now give, and
    [num_tokens] counts what [encode] of that encoding returns. *)
Theorem initialize_once (g : globals) (enc : Encoding)
    (again : result Encoding) :
  is_initialized g = false ->
  exists g',
    initialize_chunking_service (Ok enc) g = Ok g'
    /\ initialized g' enc
    /\ initialize_chunking_service again g' = Ok g'
    /\ forall text,
         num_tokens g' text
         = (tokens <- encode enc text ;; Ok (Z.of_nat (List.length tokens))).
Proof.
  intros Hg. unfold initialize_chunking_service. rewrite Hg. simpl.
  eexists. split; [reflexivity|]. repeat split.
Qed.

(** A failure to load the encoding is raised to the caller. *)
Lemma initialize_failure_raised (g : globals) (e : exn) :
  is_initialized g = false ->
  initialize_chunking_service (Raise e) g = Raise e.
Proof.
  intros Hg. unfold initialize_chunking_service. now rewrite Hg.
Qed.

Lemma sum_tokens_from (g : globals) (enc : Encoding) (chunks : list string)
    (acc : Z) :
  initialized g enc ->
  returns
    (for_each (fun chunk acc => n <- num_tokens g chunk ;; Ok (acc + n))
       chunks acc)
    (refused enc)
    (fun total => total = acc + fold_right Z.add 0 (map (count enc) chunks)).
Proof.
  intros Hready. revert acc.
  induction chunks as [|chunk chunks IH]; intros acc; simpl.
  - now rewrite Z.add_0_r.
  - apply (returns_bind _ _ _ (fun acc' => acc' = acc + count enc chunk)).
    + apply (returns_bind _ _ _ _ _
               (ChunkingFacts.num_tokens_returns g enc Hready chunk)).
      now intros n ->.
    + intros acc' ->.
      apply (returns_weaken _ _ _ _ (IH _)). intros total ->. lia.
Qed.


(** On an initialized engine and a text that is not blank, [_chunk_text]
    returns the chunks of [split] with their token counts, or raises what
    [encode] raised. *)
Lemma chunk_text_outcome (g : globals) (enc : Encoding) (L : TextLibs)
    (nl : Nltk) (request : ChunkRequest) :
  initialized g enc ->
  Py.is_empty (Py.strip (text request)) = false ->
  returns (_chunk_text g L nl request) (refused enc)
    (fun response =>
       exists parts,
         split g L nl
           {| chunk_limit := chunk_token_limit request;
              overlap := overlap_tokens request |} (text request)
         = Ok parts
         /\ response
            = {| status := "success";
                 message := "Text successfully chunked into "
                            ++ show_nat (List.length parts) ++ " chunks";
                 chunks := parts;
                 total_chunks := List.length parts;
                 total_tokens := fold_right Z.add 0 (map (count enc) parts) |}).
Proof.
  intros Hready Hne.
  pose (self := {| chunk_limit := chunk_token_limit request;
                   overlap := overlap_tokens request |}).
  unfold _chunk_text, __init__.
  rewrite Hne, (ErrorFacts.strip_nonblank _ Hne).
  destruct Hready as [He Hi]. rewrite Hi. cbn [negb orb bind].
  fold self.
  pose proof (ChunkingFacts.split_pieces g enc nl self (conj He Hi) L
                (text request)) as Hsplit.
  destruct (split g L nl self (text request)) as [parts|e];
    [|exact Hsplit].
  cbn [bind]. unfold sum_tokens.
  apply (returns_bind _ _ _ _ _ (sum_tokens_from g enc parts 0 (conj He Hi))).
  intros total ->. cbn [returns]. exists parts. split; reflexivity.
Qed.


End EngineFacts.

(** ** Units, seeds and limits of the chunks *)

Module OverlapSeedFacts.
Import Chunking.

(** The tokens the overlap seed is decoded from, for every value of the
    overlap: the last [overlap] tokens of the chunk (all of them when
    there are fewer) when it is positive, every token when it is zero,
    and all but the first [-overlap] tokens when it is negative. *)
Theorem overlap_seed_tokens (enc : Encoding) (self : SmartChunker)
    (tokens : list (token enc)) :
  overlap_seed enc self tokens
  = Py.strip (decode enc
      (skipn
         (if 0 <? overlap self
          then List.length tokens - Z.to_nat (overlap self)
          else Nat.min (Z.to_nat (- overlap self)) (List.length tokens))
         tokens)).
Proof.
  unfold overlap_seed, Py.slice_from.
  destruct (0 <? overlap self) eqn:Epos.
  - apply Z.ltb_lt in Epos.
    destruct (- overlap self <? 0) eqn:E; [|apply Z.ltb_ge in E; lia].
    do 3 f_equal. lia.
  - apply Z.ltb_ge in Epos.
    destruct (- overlap self <? 0) eqn:E; [apply Z.ltb_lt in E; lia|].
    do 3 f_equal. lia.
Qed.

End OverlapSeedFacts.

Module SplitUnitsFacts.
Import Chunking.
#[local] Open Scope list_scope.

Lemma seed_chain_snoc (enc : Encoding) (self : SmartChunker)
    (parts : list (list piece)) (prev : option string) (ps : list piece) :
  seed_chain enc self prev (parts ++ [ps])
  <-> seed_chain enc self prev parts
      /\ seed_from enc self (last_chunk prev parts) ps.
Proof.
  revert prev. induction parts as [|p0 parts IH]; intros prev; simpl.
  - tauto.
  - rewrite IH. unfold last_chunk. simpl. tauto.
Qed.

Lemma last_chunk_snoc (prev : option string) (parts : list (list piece))
    (ps : list piece) :
  last_chunk prev (parts ++ [ps]) = Some (render ps).
Proof. unfold last_chunk. now rewrite fold_left_app. Qed.

Lemma unit_texts_app (ps qs : list piece) :
  unit_texts (ps ++ qs) = unit_texts ps ++ unit_texts qs.
Proof. unfold unit_texts. now rewrite filter_app, map_app. Qed.

Lemma seed_from_snoc (enc : Encoding) (self : SmartChunker)
    (prev : option string) (ps : list piece) (u : string) :
  seed_from enc self prev ps -> seed_from enc self prev (ps ++ [Unit u]).
Proof. destruct ps as [|[s|v] ps]; simpl; auto. Qed.

(** Closing the buffer: its pieces become the last chunk, and [next] is
    the new buffer. *)
Lemma unit_inv_close (enc : Encoding) (self : SmartChunker)
    (units : list string) (chunks current : list string)
    (next : list piece) :
  unit_inv enc self units (chunks, current) ->
  seed_first next ->
  merged_within enc self next ->
  holds_unit next ->
  seed_from enc self (Some (Py.join " " current)) next ->
  unit_inv enc self (units ++ unit_texts next)
    (chunks ++ [Py.join " " current], map text_of next).
Proof.
  intros (parts & cur & Hc & Hcur & Hu & Hsf & Hw & Hh & Hch) Hn1 Hn2 Hn4 Hn3.
  simpl in *. exists (parts ++ [cur]), next. simpl. repeat split.
  - rewrite map_app, Hc, Hcur. reflexivity.
  - rewrite concat_app. simpl. rewrite app_nil_r, unit_texts_app.
    now rewrite Hu.
  - apply Forall_app. split; [exact Hsf | now repeat constructor].
  - apply Forall_app. split; [exact Hw | now repeat constructor].
  - apply Forall_app. split; [exact Hh | now constructor].
  - apply seed_chain_snoc. split; [exact Hch|].
    rewrite last_chunk_snoc. unfold render. now rewrite <- Hcur.
Qed.

(** A unit joins the buffer after the test of the merge step. *)
Lemma unit_inv_extend (enc : Encoding) (self : SmartChunker)
    (units : list string) (chunks current : list string) (u : string) :
  unit_inv enc self units (chunks, current) ->
  count enc (Py.join " " (current ++ [u])) <= chunk_limit self ->
  unit_inv enc self (units ++ [u]) (chunks, current ++ [u]).
Proof.
  intros (parts & cur & Hc & Hcur & Hu & Hsf & Hw & Hh & Hch) Hfit.
  simpl in *. exists parts, (cur ++ [Unit u]). simpl.
  apply Forall_app in Hsf as [Hsf1 Hsf2]. apply Forall_app in Hw as [Hw1 _].
  apply Forall_app in Hh as [Hh1 _].
  apply seed_chain_snoc in Hch as [Hch1 Hch2].
  apply Forall_inv in Hsf2.
  repeat split.
  - exact Hc.
  - now rewrite map_app, Hcur.
  - rewrite app_assoc, unit_texts_app, Hu. reflexivity.
  - apply Forall_app. split; [exact Hsf1|].
    constructor; [|constructor]. now apply ChunkingFacts.seed_first_snoc.
  - apply Forall_app. split; [exact Hw1|].
    constructor; [|constructor]. intros _.
    unfold render. now rewrite map_app, <- Hcur.
  - apply Forall_app. split; [exact Hh1|].
    constructor; [|constructor]. right. rewrite unit_texts_app. simpl.
    intros H. now apply app_eq_nil in H as [_ H].
  - apply seed_chain_snoc. split; [exact Hch1|]. now apply seed_from_snoc.
Qed.

Section Initialized.

Variable g : globals.
Variable enc : Encoding.
Variable nl : Nltk.
Variable self : SmartChunker.
Hypothesis Hready : initialized g enc.

Lemma add_to_chunks_unit_inv (units : list string) (u : string) (b : buffers) :
  unit_inv enc self units b ->
  returns (_add_to_chunks g self u b) (refused enc)
    (unit_inv enc self (units ++ [u])).
Proof.
  destruct b as [chunks current]. intros Hinv.
  apply (returns_weaken _ _ _ _
           (ChunkingFacts.add_to_chunks_returns g enc self Hready u chunks
              current)).
  intros b' [[Hfit ->]|[Hover ->]].
  - now apply unit_inv_extend.
  - apply (unit_inv_close enc self units chunks current
             [Seed (overlap_seed enc self
                      (encode_ordinary enc (Py.join " " current))); Unit u]);
      try assumption.
    + now repeat constructor.
    + intros H. simpl in H. lia.
    + right. discriminate.
    + simpl. eauto.
Qed.

Lemma kept_fragments_snoc (done : list string) (sub : string) :
  kept_fragments (done ++ [sub])
  = kept_fragments done
    ++ (if Py.is_empty (Py.strip sub) then [] else [Py.strip sub]).
Proof.
  unfold kept_fragments. rewrite filter_app, map_app. simpl.
  now destruct (Py.is_empty (Py.strip sub)).
Qed.

(** An oversized fragment becomes a chunk of its own after an empty
    buffer. *)
Lemma unit_inv_standalone (units : list string) (chunks : list string)
    (u : string) :
  unit_inv enc self units (chunks, []) ->
  unit_inv enc self (units ++ [u]) (chunks ++ [u], []).
Proof.
  intros (parts & cur & Hc & Hcur & Hu & Hsf & Hw & Hh & Hch).
  simpl in *. destruct cur; [|discriminate]. rewrite app_nil_r in Hu.
  apply Forall_app in Hsf as [Hsf _]. apply Forall_app in Hw as [Hw _].
  apply Forall_app in Hh as [Hh _].
  apply seed_chain_snoc in Hch as [Hch _].
  exists (parts ++ [[Unit u]]), []. simpl. repeat split.
  - rewrite map_app, Hc. reflexivity.
  - rewrite app_nil_r, concat_app, unit_texts_app, Hu. reflexivity.
  - apply Forall_app. split; [|now repeat constructor].
    apply Forall_app. split; [exact Hsf | now repeat constructor].
  - apply Forall_app. split.
    + apply Forall_app. split; [exact Hw|].
      constructor; [|constructor]. intros H. simpl in H. lia.
    + constructor; [|constructor]. intros H. simpl in H. lia.
  - apply Forall_app. split.
    + apply Forall_app. split; [exact Hh|].
      constructor; [|constructor]. right. discriminate.
    + constructor; [|constructor]. now left.
  - apply seed_chain_snoc. split; [|exact I].
    apply seed_chain_snoc. split; [exact Hch | exact I].
Qed.

Lemma sub_step_unit_inv (units done : list string) (sub : string)
    (b : buffers) :
  unit_inv enc self (units ++ kept_fragments done) b ->
  returns (sub_step g self sub b) (refused enc)
    (unit_inv enc self (units ++ kept_fragments (done ++ [sub]))).
Proof.
  intros Hinv. rewrite kept_fragments_snoc, app_assoc. unfold sub_step.
  destruct (Py.is_empty (Py.strip sub)).
  - simpl. now rewrite app_nil_r.
  - apply (returns_bind _ _ _ _ _
             (ChunkingFacts.num_tokens_returns g enc Hready _)).
    intros n ->.
    destruct (count enc sub <=? chunk_limit self);
      [now apply add_to_chunks_unit_inv|].
    destruct b as [chunks current].
    destruct (nonempty current) eqn:En; cbn [returns].
    + assert (H : unit_inv enc self (units ++ kept_fragments done)
                    (chunks ++ [Py.join " " current], [])).
      { pose proof (unit_inv_close enc self _ chunks current [] Hinv I) as H.
        simpl in H. rewrite app_nil_r in H. apply H; [|now left|exact I].
        intros H0. simpl in H0. lia. }
      now apply unit_inv_standalone.
    + apply nonempty_false in En. subst current.
      now apply unit_inv_standalone.
Qed.

Lemma sentence_step_unit_inv (units : list string) (sentence : string)
    (b : buffers) :
  unit_inv enc self units b ->
  returns (sentence_step g nl self sentence b) (refused enc)
    (unit_inv enc self (units ++ sentence_units g enc nl self sentence)).
Proof.
  intros Hinv. unfold sentence_step, sentence_units.
  destruct (Py.is_empty (Py.strip sentence)).
  - simpl. now rewrite app_nil_r.
  - apply (returns_bind _ _ _ _ _
             (ChunkingFacts.num_tokens_returns g enc Hready _)).
    intros n ->.
    destruct (count enc (Py.strip sentence) >? chunk_limit_with_buffer self).
    + unfold long_sentence_path.
      pose proof (ChunkingFacts.long_sentence_fragment_words g enc nl self
                    Hready (Py.strip sentence)) as Hfrag.
      destruct (_split_long_sentence g nl self (Py.strip sentence))
        as [fragments|e]; [|exact Hfrag].
      cbn [bind].
      apply (for_each_returns (sub_step g self) (refused enc)
               (fun done b => unit_inv enc self (units ++ kept_fragments done) b))
        with (l := fragments) (done := @nil string) (s := b).
      * intros done a s Hs. now apply sub_step_unit_inv.
      * simpl. now rewrite app_nil_r.
    + now apply add_to_chunks_unit_inv.
Qed.

(** The sentence loop of [split] keeps the invariant on units. *)
Lemma sentence_loop_unit_inv (sentences : list string) :
  returns (for_each (sentence_step g nl self) sentences ([], []))
    (refused enc)
    (unit_inv enc self (flat_map (sentence_units g enc nl self) sentences)).
Proof.
  apply (for_each_returns (sentence_step g nl self) (refused enc)
           (fun done b =>
              unit_inv enc self
                (flat_map (sentence_units g enc nl self) done) b))
    with (l := sentences) (done := @nil string)
         (s := (@nil string, @nil string)).
  - intros done a s Hs. rewrite flat_map_app. simpl. rewrite app_nil_r.
    now apply sentence_step_unit_inv.
  - exists [], []. simpl. repeat split; repeat constructor.
    intros H. simpl in H. lia.
Qed.

(** What [split] returns, in units. *)
Lemma split_units (L : TextLibs) (text : string) :
  returns (split g L nl self text) (refused enc)
    (fun chunks =>
       exists parts,
         chunks = map render parts
         /\ unit_texts (concat parts)
            = flat_map (sentence_units g enc nl self) (sentences_of L nl text)
         /\ Forall seed_first parts
         /\ Forall (merged_within enc self) parts
         /\ Forall holds_unit parts
         /\ seed_chain enc self None parts).
Proof.
  unfold split.
  apply (returns_bind _ _ _ _ _
           (sentence_loop_unit_inv (sentences_of L nl text))).
  intros [chunks current] Hinv. cbn [returns].
  destruct (nonempty current) eqn:En.
  - assert (H : unit_inv enc self
                  (flat_map (sentence_units g enc nl self) (sentences_of L nl text))
                  (chunks ++ [Py.join " " current], [])).
    { pose proof (unit_inv_close enc self _ chunks current [] Hinv I) as H.
      simpl in H. rewrite app_nil_r in H. apply H; [|now left|exact I].
      intros H0. simpl in H0. lia. }
    destruct H as (parts & cur & Hc & Hcur & Hu & Hsf & Hw & Hh & Hch).
    simpl in *. destruct cur; [|discriminate]. rewrite app_nil_r in Hu.
    apply Forall_app in Hsf as [Hsf _]. apply Forall_app in Hw as [Hw _].
    apply Forall_app in Hh as [Hh _].
    apply seed_chain_snoc in Hch as [Hch _].
    exists parts. rewrite Hc. now repeat split.
  - apply nonempty_false in En. subst current.
    destruct Hinv as (parts & cur & Hc & Hcur & Hu & Hsf & Hw & Hh & Hch).
    simpl in *. destruct cur; [|discriminate]. rewrite app_nil_r in Hu.
    apply Forall_app in Hsf as [Hsf _]. apply Forall_app in Hw as [Hw _].
    apply Forall_app in Hh as [Hh _].
    apply seed_chain_snoc in Hch as [Hch _].
    exists parts. rewrite Hc. now repeat split.
Qed.

(** The chunks that [split] returns are made of an optional overlap seed
    followed by units of the text, the units of all chunks are the units
    of the sentences in order, and a chunk that holds two units or more is
    within the limit.  The call raises only when [encode] refuses a
    text. *)
Theorem split_merged_chunks_within_limit (L : TextLibs) (text : string) :
  match split g L nl self text with
  | Ok chunks =>
      exists parts,
        chunks = map render parts
        /\ unit_texts (concat parts)
           = flat_map (sentence_units g enc nl self) (sentences_of L nl text)
        /\ Forall seed_first parts
        /\ Forall (merged_within enc self) parts
  | Raise e => refused enc e
  end.
Proof.
  apply (returns_weaken _ _ _ _ (split_units L text)).
  intros chunks (parts & H1 & H2 & H3 & H4 & _).
  exists parts. now repeat split.
Qed.

(** A chunk of [split] that starts with an overlap seed is never the
    first one, and its seed is the overlap seed of the chunk just before
    it: the decoding, stripped, of the slice [tokens[-overlap:]] of that
    chunk's tokens. *)
Theorem split_seeds_come_from_previous_chunk (L : TextLibs) (text : string) :
  match split g L nl self text with
  | Ok chunks =>
      exists parts,
        chunks = map render parts
        /\ unit_texts (concat parts)
           = flat_map (sentence_units g enc nl self) (sentences_of L nl text)
        /\ Forall seed_first parts
        /\ seed_chain enc self None parts
  | Raise e => refused enc e
  end.
Proof.
  apply (returns_weaken _ _ _ _ (split_units L text)).
  intros chunks (parts & H1 & H2 & H3 & _ & _ & H5).
  exists parts. now repeat split.
Qed.

Lemma sentence_units_nonempty (sentence unit : string) :
  In unit (sentence_units g enc nl self sentence) -> unit <> "".
Proof.
  unfold sentence_units.
  destruct (Py.is_empty (Py.strip sentence)) eqn:E; [intros []|].
  destruct (count enc (Py.strip sentence) >? chunk_limit_with_buffer self).
  - destruct (_split_long_sentence g nl self (Py.strip sentence));
      [|intros []].
    unfold kept_fragments. intros H.
    apply in_map_iff in H as (sub & <- & Hin).
    apply filter_In in Hin as [_ Hne].
    intros Heq. rewrite Heq in Hne. discriminate.
  - intros [<-|[]] Heq. rewrite Heq in E. discriminate.
Qed.

Lemma render_with_unit (ps : list piece) :
  seed_first ps ->
  unit_texts ps <> [] ->
  (forall unit, In unit (unit_texts ps) -> unit <> "") ->
  render ps <> "".
Proof.
  intros Hsf Hhas Hne. destruct ps as [|p [|q rest]].
  - now destruct Hhas.
  - destruct p as [s|u]; [now destruct Hhas|].
    unfold render. simpl. apply Hne. now left.
  - unfold render. simpl. intros H.
    destruct (text_of p); discriminate.
Qed.

(** The chunks that [split] returns are made of an optional overlap seed
    followed by units of the text, and a chunk that holds a unit is not
    the empty string: an empty chunk comes only from a buffer closed while
    empty. *)
Theorem split_chunk_with_unit_nonempty (L : TextLibs) (text : string) :
  match split g L nl self text with
  | Ok chunks =>
      exists parts,
        chunks = map render parts
        /\ unit_texts (concat parts)
           = flat_map (sentence_units g enc nl self) (sentences_of L nl text)
        /\ Forall seed_first parts
        /\ Forall (fun ps => render ps = "" -> ps = []) parts
  | Raise e => refused enc e
  end.
Proof.
  apply (returns_weaken _ _ _ _ (split_units L text)).
  intros chunks (parts & H1 & H2 & H3 & _ & H4 & _).
  exists parts. repeat split; try assumption.
  apply Forall_forall. intros ps Hin Hempty.
  rewrite Forall_forall in H3, H4.
  destruct (H4 ps Hin) as [->|Hhas]; [reflexivity|].
  exfalso. revert Hempty. apply render_with_unit; [now apply H3 | exact Hhas |].
  intros unit Hunit.
  assert (Hall : In unit (unit_texts (concat parts))).
  { unfold unit_texts in *. apply in_map_iff in Hunit as (p & <- & Hp).
    apply in_map. apply filter_In in Hp as [Hp1 Hp2].
    apply filter_In. split; [|exact Hp2].
    apply in_concat. now exists ps. }
  rewrite H2 in Hall. apply in_flat_map in Hall as (sentence & _ & Hs).
  now apply (sentence_units_nonempty sentence).
Qed.

End Initialized.
End SplitUnitsFacts.

Module SingleChunkFacts.
Import Chunking.
#[local] Open Scope list_scope.

Lemma kept_fragments_app (a b : list string) :
  kept_fragments (a ++ b) = kept_fragments a ++ kept_fragments b.
Proof. unfold kept_fragments. now rewrite filter_app, map_app. Qed.

Lemma kept_fragments_cons (a : string) (l : list string) :
  kept_fragments (a :: l)
  = (if Py.is_empty (Py.strip a) then [] else [Py.strip a])
    ++ kept_fragments l.
Proof.
  unfold kept_fragments. simpl. now destruct (Py.is_empty (Py.strip a)).
Qed.

Lemma accepted_true (enc : Encoding) (text : string) :
  accepted enc text = true -> disallowed_special enc text = None.
Proof.
  unfold accepted. now destruct (disallowed_special enc text).
Qed.

Section Initialized.

Variable g : globals.
Variable enc : Encoding.
Variable nl : Nltk.
Variable self : SmartChunker.
Hypothesis Hready : initialized g enc.

(** While everything fits, the sentence loop only fills the buffer. *)
Lemma sentence_loop_fills_buffer (l done : list string) :
  none_refused enc (kept_fragments (done ++ l)) = true ->
  prefixes_fit enc self (kept_fragments (done ++ l)) = true ->
  none_long enc self (kept_fragments (done ++ l)) = true ->
  for_each (sentence_step g nl self) l ([], kept_fragments done)
  = Ok ([], kept_fragments (done ++ l)).
Proof.
  revert done. induction l as [|a l IH]; intros done Hacc Hfit Hlong.
  - simpl. now rewrite app_nil_r.
  - assert (Hshift : done ++ a :: l = (done ++ [a]) ++ l)
      by now rewrite <- app_assoc.
    assert (Hnext : for_each (sentence_step g nl self) l
                      ([], kept_fragments (done ++ [a]))
                    = Ok ([], kept_fragments (done ++ a :: l))).
    { rewrite Hshift. apply IH; now rewrite <- Hshift. }
    cbn [for_each]. unfold sentence_step at 1.
    rewrite kept_fragments_app, kept_fragments_cons in Hacc, Hfit, Hlong.
    rewrite kept_fragments_app, kept_fragments_cons in Hnext.
    destruct (Py.is_empty (Py.strip a)) eqn:Ea.
    + cbn [bind]. simpl in Hnext. now rewrite app_nil_r in Hnext.
    + unfold none_refused in Hacc. apply andb_prop in Hacc as [Hunits Hjoins].
      assert (Hacc1 : disallowed_special enc (Py.strip a) = None).
      { rewrite !forallb_app in Hunits.
        apply andb_prop in Hunits as [_ Hu]. apply andb_prop in Hu as [Hu _].
        simpl in Hu. rewrite andb_true_r in Hu. now apply accepted_true. }
      assert (Hacc2 : disallowed_special enc
                        (Py.join " " (kept_fragments done ++ [Py.strip a]))
                      = None).
      { rewrite forallb_forall in Hjoins.
        specialize (Hjoins (S (List.length (kept_fragments done)))).
        rewrite firstn_app in Hjoins.
        rewrite firstn_all2 in Hjoins by lia.
        replace (S (List.length (kept_fragments done))
                 - List.length (kept_fragments done))%nat with 1%nat in Hjoins
          by lia.
        simpl in Hjoins. apply accepted_true, Hjoins.
        apply in_seq. rewrite !length_app. simpl. lia. }
      rewrite (ChunkingFacts.num_tokens_accepted g enc Hready _ Hacc1).
      cbn [bind].
      assert (Hnot : (count enc (Py.strip a) >? chunk_limit_with_buffer self)
                     = false).
      { unfold none_long in Hlong. rewrite !forallb_app in Hlong.
        apply andb_prop in Hlong as [_ Hl]. apply andb_prop in Hl as [Hl _].
        simpl in Hl. rewrite andb_true_r in Hl.
        rewrite Z.gtb_ltb. apply Z.leb_le in Hl. now apply Z.ltb_ge. }
      rewrite Hnot. unfold normal_sentence_path.
      assert (Hone : count enc
                       (Py.join " " (kept_fragments done ++ [Py.strip a]))
                     <= chunk_limit self).
      { unfold prefixes_fit in Hfit. rewrite forallb_forall in Hfit.
        specialize (Hfit (S (List.length (kept_fragments done)))).
        rewrite firstn_app in Hfit.
        rewrite firstn_all2 in Hfit by lia.
        replace (S (List.length (kept_fragments done))
                 - List.length (kept_fragments done))%nat with 1%nat in Hfit
          by lia.
        simpl in Hfit. apply Z.leb_le, Hfit.
        apply in_seq. rewrite !length_app. simpl. lia. }
      rewrite (ChunkingFacts.add_to_chunks_fits g enc self Hready _ _ _
                 Hacc2 Hone).
      cbn [bind]. exact Hnext.
Qed.

(** When [encode] accepts the sentences and their joins, no sentence is
    long and every prefix of the sentences fits, the text comes back as
    one chunk: its sentences, stripped, joined by single spaces. *)
Theorem split_single_chunk (L : TextLibs) (text : string) :
  none_refused enc (kept_fragments (sentences_of L nl text)) = true ->
  prefixes_fit enc self (kept_fragments (sentences_of L nl text)) = true ->
  none_long enc self (kept_fragments (sentences_of L nl text)) = true ->
  split g L nl self text
  = Ok (if nonempty (kept_fragments (sentences_of L nl text))
        then [Py.join " " (kept_fragments (sentences_of L nl text))]
        else []).
Proof.
  intros Hacc Hfit Hlong. unfold split.
  pose proof (sentence_loop_fills_buffer (sentences_of L nl text) []
                Hacc Hfit Hlong) as Hloop.
  change (kept_fragments []) with (@nil string) in Hloop.
  cbn [app] in Hloop. rewrite Hloop. reflexivity.
Qed.

End Initialized.
End SingleChunkFacts.

(** ** The content that the chunks keep *)

Module ContentFacts.
Import Py PyFacts PyMore Chunking.
#[local] Open Scope list_scope.










Section Initialized.

Variable g : globals.
Variable enc : Encoding.
Variable nl : Nltk.
Variable self : SmartChunker.
Hypothesis Hready : initialized g enc.


End Initialized.
End ContentFacts.

(** ** The endpoints *)

Module EndpointFacts.
Import Elastic Endpoints.
#[local] Open Scope list_scope.

(** Through the proxy that the router imports, [chunk_content] never
    reaches a document: it sends no update, and it answers with the error
    response "Elasticsearch service not available" while the proxy is not
    initialized and with HTTP 500 once it is, because the proxy class lacks
    the method [get_document_by_itemid]. *)
Theorem chunk_content_through_proxy (P : Pydantic)
    (proxy : LazyElasticsearchService) (g : Chunking.globals) (L : TextLibs)
    (nl : Nltk) (request : ChunkApiRequest) :
  chunk_content P (lazy_service proxy) g L nl request
  = ([],
     if lazy_is_initialized proxy
     then HTTPException 500
            "Internal server error: 'LazyElasticsearchService' object has no attribute 'get_document_by_itemid'"
     else Returns {| status := "error";
                     message := "Elasticsearch service not available";
                     elasticsearch_indexed := false;
                     document_id := None;
                     action_performed := None |}).
Proof.
  unfold chunk_content, chunk_content_body. simpl.
  now destruct (lazy_is_initialized proxy).
Qed.

(** Through the same proxy [get_chunks] never returns chunks: HTTP 503
    while the proxy is not initialized, HTTP 500 once it is. *)
Theorem get_chunks_through_proxy (P : Pydantic)
    (proxy : LazyElasticsearchService) (g : Chunking.globals) (L : TextLibs)
    (nl : Nltk) (id index_name input_field_name : string) :
  get_chunks P (lazy_service proxy) g L nl id index_name input_field_name
  = if lazy_is_initialized proxy
    then HTTPException 500 "Internal server error"
    else HTTPException 503 "Elasticsearch service not available".
Proof.
  unfold get_chunks, get_chunks_body. simpl.
  now destruct (lazy_is_initialized proxy).
Qed.

Lemma source_fields_of_hit (doc_id : string) (fields : list (string * value))
    (request : ChunkApiRequest) :
  source_fields (hit_document doc_id fields) request
  = Ok (field_value fields (input_field_name request),
        field_value fields (output_field_name request)).
Proof. reflexivity. Qed.

Lemma document_id_of_hit (P : Pydantic) (doc_id : string)
    (fields : list (string * value)) :
  document_id_of P (hit_document doc_id fields)
  = validate_optional_str P (VStr doc_id).
Proof. reflexivity. Qed.

Section WithService.

Variable P : Pydantic.
Variable es : Service.
Variable fetch : string -> string -> result value.
Variable L : TextLibs.
Variable nl : Nltk.

(** The validator accepts a string where a string is declared. *)
Hypothesis validate_str_accepts : forall s, validate_str P (VStr s) = Ok s.
Hypothesis validate_optional_str_accepts :
  forall s, validate_optional_str P (VStr s) = Ok (Some s).

Hypothesis es_initialized : initialized_flag es = true.
Hypothesis es_fetch : get_document_by_itemid es = Some fetch.

(** Without [force_update], a document that already has chunks is left
    alone: the answer is "ignored", nothing is sent, and the chunker is not
    run, whatever the state of the engine. *)
Theorem chunked_document_is_ignored (g : Chunking.globals)
    (request : ChunkApiRequest) (doc_id : string)
    (fields : list (string * value)) :
  fetch (index_name request) (id request) = Ok (hit_document doc_id fields) ->
  force_update request = false ->
  truthy (field_value fields (output_field_name request)) = true ->
  chunk_content P es g L nl request
  = ([],
     Returns {| status := "ignored";
                message := "Document already chunked for itemid: "
                           ++ id request;
                elasticsearch_indexed := false;
                document_id := Some doc_id;
                action_performed := Some "noop" |}).
Proof.
  intros Hdoc Hforce Hchunks.
  unfold chunk_content, chunk_content_body.
  rewrite es_initialized, es_fetch, Hdoc.
  change (truthy (hit_document doc_id fields)) with true. cbn iota.
  rewrite source_fields_of_hit, Hforce, Hchunks. cbn [negb andb].
  now rewrite document_id_of_hit, validate_optional_str_accepts.
Qed.

(** Without [force_update], a document that has no chunks yet is never
    chunked: the text stays the empty string, so the answer is HTTP 400
    "Text content cannot be empty" and nothing is sent, whatever the
    document holds and whatever the state of the engine. *)
Theorem unforced_request_never_chunks (g : Chunking.globals)
    (request : ChunkApiRequest) (doc_id : string)
    (fields : list (string * value)) :
  fetch (index_name request) (id request) = Ok (hit_document doc_id fields) ->
  force_update request = false ->
  truthy (field_value fields (output_field_name request)) = false ->
  chunk_content P es g L nl request
  = ([], HTTPException 400 "Text content cannot be empty").
Proof.
  intros Hdoc Hforce Hchunks.
  unfold chunk_content, chunk_content_body.
  rewrite es_initialized, es_fetch, Hdoc.
  change (truthy (hit_document doc_id fields)) with true. cbn iota.
  rewrite source_fields_of_hit, Hforce, Hchunks. cbn [negb andb].
  unfold update_and_respond, _chunk_and_update_document, chunk_request.
  now rewrite validate_str_accepts.
Qed.

(** With [force_update], a document without input text gets the answer
    "warning" and nothing is sent. *)
Theorem forced_request_without_text_warns (g : Chunking.globals)
    (request : ChunkApiRequest) (doc_id : string)
    (fields : list (string * value)) :
  fetch (index_name request) (id request) = Ok (hit_document doc_id fields) ->
  force_update request = true ->
  truthy (field_value fields (input_field_name request)) = false ->
  chunk_content P es g L nl request
  = ([],
     Returns {| status := "warning";
                message := "No " ++ input_field_name request
                           ++ " found for itemid: " ++ id request;
                elasticsearch_indexed := false;
                document_id := None;
                action_performed := None |}).
Proof.
  intros Hdoc Hforce Htext.
  unfold chunk_content, chunk_content_body.
  rewrite es_initialized, es_fetch, Hdoc.
  change (truthy (hit_document doc_id fields)) with true. cbn iota.
  rewrite source_fields_of_hit, Hforce, Htext. reflexivity.
Qed.


(** [get_chunks] chunks the input text of the document with the fixed
    limit of 100 tokens and overlap of 20, on an initialized engine and a
    text that is not blank: it returns the chunks of [split], their number
    and the sum of their token counts, or, when [encode] refuses a text,
    it answers HTTP 500. *)
Theorem get_chunks_returns_chunks (g : Chunking.globals) (enc : Encoding)
    (id index_name input_field_name doc_id : string)
    (fields : list (string * value)) (text : string) :
  initialized g enc ->
  fetch index_name id = Ok (hit_document doc_id fields) ->
  field_value fields input_field_name = VStr text ->
  Py.is_empty (Py.strip text) = false ->
  (exists parts,
     Chunking.split g L nl
       {| Chunking.chunk_limit := 100; Chunking.overlap := 20 |} text
     = Ok parts
     /\ get_chunks P es g L nl id index_name input_field_name
        = Returns (Found id parts (List.length parts)
                     (fold_right Z.add 0 (map (count enc) parts))))
  \/ (exists refused_text msg,
        disallowed_special enc refused_text = Some msg
        /\ get_chunks P es g L nl id index_name input_field_name
           = HTTPException 500 "Internal server error").
Proof.
  intros Hready Hdoc Hfield Htext.
  pose proof (EngineFacts.chunk_text_outcome g enc L nl
                {| Router.text := text;
                   Router.chunk_token_limit := 100;
                   Router.overlap_tokens := 20 |}
                Hready Htext) as Hout.
  assert (Htruthy : truthy (VStr text) = true).
  { simpl. now rewrite (ErrorFacts.strip_nonblank _ Htext). }
  unfold get_chunks, get_chunks_body.
  rewrite es_initialized, es_fetch, Hdoc. cbn [negb bind].
  change (truthy (hit_document doc_id fields)) with true. cbn iota.
  change (get_default (hit_document doc_id fields) "_source" (VDict []))
    with (Ok (VDict fields)).
  cbn [bind].
  change (get (VDict fields) input_field_name)
    with (Ok (field_value fields input_field_name)).
  cbn [bind]. rewrite Hfield, Htruthy. unfold chunk_request.
  rewrite validate_str_accepts. cbn [bind].
  destruct (Router._chunk_text g L nl
              {| Router.text := text;
                 Router.chunk_token_limit := 100;
                 Router.overlap_tokens := 20 |})
    as [response|e].
  - left. destruct Hout as (parts & Hsplit & ->).
    exists parts. split; [exact Hsplit | reflexivity].
  - right. destruct Hout as (refused_text & msg & Hd & ->).
    now exists refused_text, msg.
Qed.

(** A document whose input text is whitespace only makes [get_chunks]
    answer HTTP 500: the validation error of the entry point is caught
    with every other exception. *)
Theorem get_chunks_blank_text_is_server_error (g : Chunking.globals)
    (id index_name input_field_name doc_id : string)
    (fields : list (string * value)) (text : string) :
  fetch index_name id = Ok (hit_document doc_id fields) ->
  field_value fields input_field_name = VStr text ->
  text <> "" ->
  Py.is_empty (Py.strip text) = true ->
  get_chunks P es g L nl id index_name input_field_name
  = HTTPException 500 "Internal server error".
Proof.
  intros Hdoc Hfield Hne Hblank.
  unfold get_chunks, get_chunks_body.
  rewrite es_initialized, es_fetch, Hdoc. cbn [negb bind].
  change (truthy (hit_document doc_id fields)) with true. cbn iota.
  change (get_default (hit_document doc_id fields) "_source" (VDict []))
    with (Ok (VDict fields)).
  cbn [bind].
  change (get (VDict fields) input_field_name)
    with (Ok (field_value fields input_field_name)).
  cbn [bind]. rewrite Hfield.
  assert (Htruthy : truthy (VStr text) = true).
  { simpl. destruct text; [congruence | reflexivity]. }
  rewrite Htruthy. unfold chunk_request.
  rewrite validate_str_accepts. cbn [bind].
  unfold Router._chunk_text. cbn [Router.text].
  now rewrite Hblank, orb_true_r.
Qed.

End WithService.
End EndpointFacts.

(** ** Evaluations, continued *)

Module MoreEvaluations.
Import Chunking Examples MoreExamples.
#[local] Open Scope list_scope.



Lemma split_by_words_keeps_words_witness :
  initialized Toy.ready Toy.word_pieces
  /\ exists groups : list word_group,
       ChunkingMore._split_by_words Toy.ready Toy.nltk (Toy.chunker 3 1) greek
       = Ok (map (fun grp => Py.join " " (group_words grp)) groups)
       /\ concat (map snd groups) = words_of Toy.nltk greek
       /\ overlap_chain (Toy.chunker 3 1) [] groups
       /\ Forall (fun grp => snd grp <> []) groups.
Proof.
  split; [exact (conj eq_refl eq_refl)|].
  pose proof (SplitByWordsFacts.split_by_words_keeps_words Toy.ready
                Toy.word_pieces Toy.nltk (Toy.chunker 3 1)
                (conj eq_refl eq_refl) greek) as T.
  destruct (ChunkingMore._split_by_words Toy.ready Toy.nltk (Toy.chunker 3 1)
              greek)
    as [chunks|e] eqn:E; [|vm_compute in E; discriminate E].
  destruct T as (groups & -> & T).
  exists groups. split; [reflexivity | exact T].
Defined.

Lemma split_by_words_within_limit_witness :
  initialized Toy.ready Toy.word_pieces
  /\ exists groups : list word_group,
       ChunkingMore._split_by_words Toy.ready Toy.nltk (Toy.chunker 3 1) greek
       = Ok (map (fun grp => Py.join " " (group_words grp)) groups)
       /\ concat (map snd groups) = words_of Toy.nltk greek
       /\ (forall grp, In grp groups ->
             3 < count Toy.word_pieces (Py.join " " (group_words grp)) ->
             exists word, snd grp = [word]).
Proof.
  split; [exact (conj eq_refl eq_refl)|].
  pose proof (SplitByWordsFacts.split_by_words_within_limit Toy.ready
                Toy.word_pieces Toy.nltk (Toy.chunker 3 1)
                (conj eq_refl eq_refl) greek) as T.
  destruct (ChunkingMore._split_by_words Toy.ready Toy.nltk (Toy.chunker 3 1)
              greek)
    as [chunks|e] eqn:E; [|vm_compute in E; discriminate E].
  destruct T as (groups & -> & T).
  exists groups. split; [reflexivity | exact T].
Defined.

Lemma split_by_words_without_overlap_witness :
  overlap (Toy.chunker 3 0) <= 0
  /\ exists groups : list (list string),
       ChunkingMore._split_by_words Toy.ready Toy.nltk (Toy.chunker 3 0) greek
       = Ok (map (Py.join " ") groups)
       /\ concat groups = words_of Toy.nltk greek
       /\ Forall (fun grp => grp <> []) groups.
Proof.
  assert (H : overlap (Toy.chunker 3 0) <= 0) by (simpl; lia).
  split; [exact H|].
  pose proof (SplitByWordsFacts.split_by_words_without_overlap Toy.ready
                Toy.word_pieces Toy.nltk (Toy.chunker 3 0)
                (conj eq_refl eq_refl) greek H) as T.
  destruct (ChunkingMore._split_by_words Toy.ready Toy.nltk (Toy.chunker 3 0)
              greek)
    as [chunks|e] eqn:E; [|vm_compute in E; discriminate E].
  destruct T as (groups & -> & T).
  exists groups. split; [reflexivity | exact T].
Defined.

Lemma simple_sentence_split_trimmed_witness :
  In "How are you" (_simple_sentence_split questions)
  /\ "How are you" <> "" /\ Py.strip "How are you" = "How are you".
Proof.
  assert (H : In "How are you" (_simple_sentence_split questions))
    by (vm_compute; tauto).
  split; [exact H|].
  exact (FallbackFacts.simple_sentence_split_trimmed questions "How are you" H).
Defined.

Lemma initialize_once_witness :
  is_initialized at_import = false
  /\ exists g',
       initialize_chunking_service (Ok Toy.word_pieces) at_import = Ok g'
       /\ initialized g' Toy.word_pieces
       /\ initialize_chunking_service (Raise (RuntimeError "no network")) g'
          = Ok g'
       /\ forall text,
            num_tokens g' text
            = (tokens <- encode Toy.word_pieces text ;;
               Ok (Z.of_nat (List.length tokens))).
Proof.
  split; [reflexivity|].
  exact (EngineFacts.initialize_once at_import Toy.word_pieces
           (Raise (RuntimeError "no network")) eq_refl).
Defined.


Lemma split_merged_chunks_within_limit_witness :
  initialized Toy.ready Toy.word_pieces
  /\ exists parts,
       Toy.split 10 5 two_sentences = Ok (map render parts)
       /\ unit_texts (concat parts) = [hill; tree]
       /\ Forall seed_first parts
       /\ Forall (merged_within Toy.word_pieces (Toy.chunker 10 5)) parts.
Proof.
  split; [exact (conj eq_refl eq_refl)|].
  pose proof (SplitUnitsFacts.split_merged_chunks_within_limit Toy.ready
                Toy.word_pieces Toy.nltk (Toy.chunker 10 5)
                (conj eq_refl eq_refl) Toy.text_libs two_sentences) as T.
  unfold Toy.split.
  destruct (split Toy.ready Toy.text_libs Toy.nltk (Toy.chunker 10 5)
              two_sentences)
    as [chunks|e] eqn:E; [|vm_compute in E; discriminate E].
  destruct T as (parts & -> & Hu & T). exists parts.
  split; [reflexivity|]. split; [|exact T].
  rewrite Hu. vm_compute. reflexivity.
Defined.

Lemma split_seeds_come_from_previous_chunk_witness :
  initialized Toy.ready Toy.word_pieces
  /\ exists parts,
       Toy.split 10 5 two_sentences = Ok (map render parts)
       /\ unit_texts (concat parts) = [hill; tree]
       /\ Forall seed_first parts
       /\ seed_chain Toy.word_pieces (Toy.chunker 10 5) None parts.
Proof.
  split; [exact (conj eq_refl eq_refl)|].
  pose proof (SplitUnitsFacts.split_seeds_come_from_previous_chunk Toy.ready
                Toy.word_pieces Toy.nltk (Toy.chunker 10 5)
                (conj eq_refl eq_refl) Toy.text_libs two_sentences) as T.
  unfold Toy.split.
  destruct (split Toy.ready Toy.text_libs Toy.nltk (Toy.chunker 10 5)
              two_sentences)
    as [chunks|e] eqn:E; [|vm_compute in E; discriminate E].
  destruct T as (parts & -> & Hu & T). exists parts.
  split; [reflexivity|]. split; [|exact T].
  rewrite Hu. vm_compute. reflexivity.
Defined.

Lemma split_chunk_with_unit_nonempty_witness :
  initialized Toy.ready Toy.word_pieces
  /\ exists parts,
       Toy.split 10 2 eleven_tokens = Ok (map render parts)
       /\ unit_texts (concat parts) = [eleven_tokens]
       /\ Forall seed_first parts
       /\ Forall (fun ps => render ps = "" -> ps = []) parts.
Proof.
  split; [exact (conj eq_refl eq_refl)|].
  pose proof (SplitUnitsFacts.split_chunk_with_unit_nonempty Toy.ready
                Toy.word_pieces Toy.nltk (Toy.chunker 10 2)
                (conj eq_refl eq_refl) Toy.text_libs eleven_tokens) as T.
  unfold Toy.split.
  destruct (split Toy.ready Toy.text_libs Toy.nltk (Toy.chunker 10 2)
              eleven_tokens)
    as [chunks|e] eqn:E; [|vm_compute in E; discriminate E].
  destruct T as (parts & -> & Hu & T). exists parts.
  split; [reflexivity|]. split; [|exact T].
  rewrite Hu. vm_compute. reflexivity.
Defined.

(** The same holds of the chunks of the raw text, when the parser
    raises. *)
Example split_units_when_cleaning_raises :
  sentences_of Toy.text_libs Toy.nltk marked_section
  = ["<![foo[bar]]> Hello world"; "Bye."].
Proof. vm_compute. reflexivity. Qed.

Lemma split_single_chunk_witness :
  none_refused Toy.word_pieces
    (kept_fragments (sentences_of Toy.text_libs Toy.nltk "A. B. C.")) = true
  /\ prefixes_fit Toy.word_pieces (Toy.chunker 1000 0)
       (kept_fragments (sentences_of Toy.text_libs Toy.nltk "A. B. C.")) = true
  /\ none_long Toy.word_pieces (Toy.chunker 1000 0)
       (kept_fragments (sentences_of Toy.text_libs Toy.nltk "A. B. C.")) = true
  /\ Toy.split 1000 0 "A. B. C." = Ok ["A. B. C."]
  /\ Toy.split 1000 0 marked_section = Ok ["<![foo[bar]]> Hello world Bye."].
Proof.
  split; [reflexivity|]. split; [reflexivity|]. split; [reflexivity|].
  split.
  - exact (SingleChunkFacts.split_single_chunk Toy.ready Toy.word_pieces
             Toy.nltk (Toy.chunker 1000 0) (conj eq_refl eq_refl)
             Toy.text_libs "A. B. C." eq_refl eq_refl eq_refl).
  - exact (SingleChunkFacts.split_single_chunk Toy.ready Toy.word_pieces
             Toy.nltk (Toy.chunker 1000 0) (conj eq_refl eq_refl)
             Toy.text_libs marked_section eq_refl eq_refl eq_refl).
Defined.

Import Elastic Endpoints.

Lemma chunked_document_is_ignored_witness :
  chunk_content ToyElastic.pydantic
    (ToyElastic.service ToyElastic.chunked_document) at_import Toy.text_libs
    Toy.nltk (ToyElastic.request false)
  = ([],
     Returns {| status := "ignored";
                message := "Document already chunked for itemid: 42";
                elasticsearch_indexed := false;
                document_id := Some "doc-1";
                action_performed := Some "noop" |}).
Proof.
  eapply (EndpointFacts.chunked_document_is_ignored ToyElastic.pydantic
            (ToyElastic.service ToyElastic.chunked_document)
            (fun _ _ => Ok ToyElastic.chunked_document));
    try reflexivity.
Defined.

Lemma unforced_request_never_chunks_witness :
  chunk_content ToyElastic.pydantic
    (ToyElastic.service ToyElastic.fresh_document) Toy.ready Toy.text_libs
    Toy.nltk (ToyElastic.request false)
  = ([], HTTPException 400 "Text content cannot be empty").
Proof.
  eapply (EndpointFacts.unforced_request_never_chunks ToyElastic.pydantic
            (ToyElastic.service ToyElastic.fresh_document)
            (fun _ _ => Ok ToyElastic.fresh_document));
    try reflexivity.
Defined.

Lemma forced_request_without_text_warns_witness :
  chunk_content ToyElastic.pydantic
    (ToyElastic.service (hit_document "doc-1" [])) Toy.ready Toy.text_libs
    Toy.nltk (ToyElastic.request true)
  = ([],
     Returns {| status := "warning";
                message := "No body_content found for itemid: 42";
                elasticsearch_indexed := false;
                document_id := None;
                action_performed := None |}).
Proof.
  eapply (EndpointFacts.forced_request_without_text_warns ToyElastic.pydantic
            (ToyElastic.service (hit_document "doc-1" []))
            (fun _ _ => Ok (hit_document "doc-1" [])));
    try reflexivity.
Defined.


Lemma get_chunks_returns_chunks_witness :
  (exists parts,
     Chunking.split Toy.ready Toy.text_libs Toy.nltk
       {| chunk_limit := 100; overlap := 20 |} two_sentences = Ok parts
     /\ get_chunks ToyElastic.pydantic
          (ToyElastic.service ToyElastic.fresh_document) Toy.ready
          Toy.text_libs Toy.nltk "42" "pages" "body_content"
        = Returns (Found "42" parts (List.length parts)
                     (fold_right Z.add 0 (map (count Toy.word_pieces) parts))))
  /\ get_chunks ToyElastic.pydantic
       (ToyElastic.service ToyElastic.special_document) Toy.ready
       Toy.text_libs Toy.nltk "42" "pages" "body_content"
     = HTTPException 500 "Internal server error".
Proof.
  split.
  - destruct (EndpointFacts.get_chunks_returns_chunks ToyElastic.pydantic
                (ToyElastic.service ToyElastic.fresh_document)
                (fun _ _ => Ok ToyElastic.fresh_document)
                Toy.text_libs Toy.nltk (fun _ => eq_refl) eq_refl eq_refl
                Toy.ready Toy.word_pieces "42" "pages" "body_content" "doc-1"
                [("body_content", VStr two_sentences)] two_sentences
                (conj eq_refl eq_refl) eq_refl eq_refl eq_refl)
      as [H|(refused_text & msg & _ & H)].
    + exact H.
    + vm_compute in H. discriminate H.
  - destruct (EndpointFacts.get_chunks_returns_chunks ToyElastic.pydantic
                (ToyElastic.service ToyElastic.special_document)
                (fun _ _ => Ok ToyElastic.special_document)
                Toy.text_libs Toy.nltk (fun _ => eq_refl) eq_refl eq_refl
                Toy.ready Toy.word_pieces "42" "pages" "body_content" "doc-1"
                [("body_content", VStr endoftext)] endoftext
                (conj eq_refl eq_refl) eq_refl eq_refl eq_refl)
      as [(parts & _ & H)|(refused_text & msg & _ & H)].
    + vm_compute in H. discriminate H.
    + exact H.
Defined.

Lemma get_chunks_blank_text_is_server_error_witness :
  get_chunks ToyElastic.pydantic
    (ToyElastic.service ToyElastic.blank_document) Toy.ready Toy.text_libs
    Toy.nltk "42" "pages" "body_content"
  = HTTPException 500 "Internal server error".
Proof.
  eapply (EndpointFacts.get_chunks_blank_text_is_server_error
            ToyElastic.pydantic
            (ToyElastic.service ToyElastic.blank_document)
            (fun _ _ => Ok ToyElastic.blank_document)
            Toy.text_libs Toy.nltk (fun _ => eq_refl) eq_refl eq_refl
            Toy.ready "42" "pages" "body_content" "doc-1"
            [("body_content", VStr "   ")] "   ");
    try reflexivity.
  discriminate.
Defined.

End MoreEvaluations.
